(** * PhotoSelectionServer: the session and photo life cycle of [server.js]

    A shallow embedding of the request handlers of [server.js], the Express
    application behind the photo selection mini program, and proofs about
    the life cycle of a session, the session listing, the selection and the
    deletion routes.

    A handler is a function from the request, the answers of the outside
    world while it is served ([Env]) and the state of the process ([World])
    to the response and the next state.  What the model fixes:

    - a request is served in one step: the [await]s of a handler are not
      interleaved with other requests;
    - [dbData.sessions] is a map from ids to sessions that remembers the
      order in which ids were added ([JS.Obj]); the names every JavaScript
      object inherits ([constructor], [toString], ...) are not ids, and the
      statements about a session a request names leave them out
      ([JS.inherited]);
    - strings are sequences of one-byte characters (UTF-8), and letter case
      and white space are those of ASCII; the statements that lower text or
      skip white space are about plain text ([JS.plain]);
    - numbers are integers, [NaN] apart; the statements about pages stay
      within [JS.MAX_SAFE_INTEGER], where the doubles of the code are exact;
    - [createdAt] is the instant itself rather than its ISO-8601 text;
    - request parameters are absent or strings, except [selectedPhotoIds],
      which is any JSON value. *)

From Stdlib Require Import String Ascii List ZArith Bool Lia Permutation Sorted.
Import ListNotations.

Local Open Scope string_scope.
Local Open Scope Z_scope.

(** ** JavaScript values and built-ins used by the handlers *)

Module JS.

(** What [res.json] serialises and what [req.body] carries.  A number
    that is [NaN] is serialised as [null], see [JNumber]. A date is kept as
    the instant it denotes (milliseconds since the epoch); on the wire it
    is its ISO-8601 text. *)
#[local] Unset Elimination Schemes.
Inductive JSON : Type :=
| JNull
| JBool (b : bool)
| JNum (n : Z)
| JStr (s : string)
| JDate (ms : Z)
| JArr (l : list JSON)
| JObj (fields : list (string * JSON)).
#[local] Set Elimination Schemes.



(** A JavaScript number as [parseInt] and integer arithmetic produce it:
    [None] is [NaN]. *)
Definition Number := option Z.

Definition JNumber (n : Number) : JSON :=
  match n with
  | Some z => JNum z
  | None => JNull
  end.

Definition num_sub (a b : Number) : Number :=
  match a, b with
  | Some x, Some y => Some (x - y)
  | _, _ => None
  end.

Definition num_mul (a b : Number) : Number :=
  match a, b with
  | Some x, Some y => Some (x * y)
  | _, _ => None
  end.

Definition num_add (a b : Number) : Number :=
  match a, b with
  | Some x, Some y => Some (x + y)
  | _, _ => None
  end.

(** Truthiness of a value that is [undefined] or a string: only a
    non-empty string is truthy. *)
Definition truthy (v : option string) : bool :=
  match v with
  | Some s => negb (String.eqb s "")
  | None => false
  end.

(** [a || b] on such values, with a string default. *)
Definition or_default (v : option string) (d : string) : string :=
  match v with
  | Some s => if String.eqb s "" then d else s
  | None => d
  end.

(** *** Strings *)

Definition lower_char (c : ascii) : ascii :=
  let n := nat_of_ascii c in
  if ((65 <=? n) && (n <=? 90))%nat then ascii_of_nat (n + 32) else c.

(** [String.prototype.toLowerCase] on the ASCII letters; every other
    character is left as it is, which is what JavaScript does for
    characters without case (digits, punctuation, CJK text) and not for
    the cased letters beyond ASCII: see [plain]. *)
Fixpoint toLowerCase (s : string) : string :=
  match s with
  | EmptyString => EmptyString
  | String c r => String (lower_char c) (toLowerCase r)
  end.

Fixpoint startsWith (p s : string) : bool :=
  match p, s with
  | EmptyString, _ => true
  | String a p', String b s' => Ascii.eqb a b && startsWith p' s'
  | String _ _, EmptyString => false
  end.

(** [s.includes(p)]: [p] occurs in [s] at some position. *)
Fixpoint includes (s p : string) : bool :=
  startsWith p s ||
  match s with
  | EmptyString => false
  | String _ r => includes r p
  end.

(** *** parseInt *)

(** The white space [parseInt] skips, within ASCII: TAB, LF, VT, FF, CR
    and SPACE.  The white space beyond ASCII (U+00A0, U+3000, ...) is not
    skipped: see [plain]. *)
Definition is_space (c : ascii) : bool :=
  let n := nat_of_ascii c in
  ((9 <=? n) && (n <=? 13) || (n =? 32))%nat.

Fixpoint trimStart (s : string) : string :=
  match s with
  | String c r => if is_space c then trimStart r else s
  | EmptyString => EmptyString
  end.

(** Value of a digit in the given radix (10 or 16). *)
Definition digit (radix : Z) (c : ascii) : option Z :=
  let n := Z.of_nat (nat_of_ascii c) in
  let v :=
    if (48 <=? n) && (n <=? 57) then Some (n - 48)
    else if (97 <=? n) && (n <=? 122) then Some (n - 87)
    else if (65 <=? n) && (n <=? 90) then Some (n - 55)
    else None in
  match v with
  | Some d => if d <? radix then Some d else None
  | None => None
  end.

(** The longest prefix of digits, read most significant first; [acc] is
    [None] until a digit has been seen. *)
Fixpoint digits (radix : Z) (acc : option Z) (s : string) : option Z :=
  match s with
  | String c r =>
      match digit radix c with
      | Some d =>
          digits radix
            (Some (match acc with Some a => a * radix + d | None => d end)) r
      | None => acc
      end
  | EmptyString => acc
  end.

(** [parseInt(s)] without a radix: leading white space, an optional sign,
    an optional [0x]/[0X] prefix, then the digits; [NaN] when there is
    none.  The result is the exact integer, which is the number of the
    code up to [MAX_SAFE_INTEGER]; beyond it the code rounds, and overflows
    to [Infinity], which the model does not follow. *)
Definition parseInt_string (s : string) : Number :=
  let s1 := trimStart s in
  let '(sign, s2) :=
    match s1 with
    | String "-" r => (-1, r)
    | String "+" r => (1, r)
    | _ => (1, s1)
    end in
  let '(radix, s3) :=
    match s2 with
    | String "0" (String "x" r) => (16, r)
    | String "0" (String "X" r) => (16, r)
    | _ => (10, s2)
    end in
  match digits radix None s3 with
  | Some v => Some (sign * v)
  | None => None
  end.

(** A query parameter with a numeric default: [undefined] takes the
    default, which [parseInt] turns into itself. *)
Definition parseInt (v : option string) (default : Z) : Number :=
  match v with
  | Some s => parseInt_string s
  | None => Some default
  end.

(** *** Arrays *)

(** The index [Array.prototype.slice] works from: [NaN] is 0, a negative
    index counts from the end, and everything is clamped to the length. *)
Definition relative_index (len : Z) (i : Number) : Z :=
  match i with
  | None => 0
  | Some k => if k <? 0 then Z.max (len + k) 0 else Z.min k len
  end.

Definition slice {A} (l : list A) (start stop : Number) : list A :=
  let len := Z.of_nat (length l) in
  let k := relative_index len start in
  let final := relative_index len stop in
  firstn (Z.to_nat (final - k)) (skipn (Z.to_nat k) l).

(** [l.findIndex(f)] together with the element [l[i]] it stops at, which
    the handlers read next; [None] for -1. *)
Fixpoint findIndex {A} (f : A -> bool) (l : list A) : option (nat * A) :=
  match l with
  | [] => None
  | x :: r =>
      if f x then Some (0%nat, x)
      else match findIndex f r with
           | Some (i, y) => Some (S i, y)
           | None => None
           end
  end.

(** [a.includes(s)] for a string [s]: some element is that very string. *)
Definition array_includes (a : list JSON) (s : string) : bool :=
  existsb (fun x => match x with JStr t => String.eqb t s | _ => false end) a.

(** [l.splice(i, 1)]. *)
Definition splice1 {A} (i : nat) (l : list A) : list A :=
  firstn i l ++ skipn (S i) l.

(** [Array.prototype.sort] with a comparator.  The sort is stable, and
    for a consistent comparator a stable sort has one possible result, so
    any stable algorithm gives it: here, insertion from the right, an
    element going in front of the first one it does not have to follow. *)
Section Sort.
Context {A : Type} (cmp : A -> A -> Z).

Fixpoint sort_insert (x : A) (l : list A) : list A :=
  match l with
  | [] => [x]
  | y :: r => if cmp x y <=? 0 then x :: y :: r else y :: sort_insert x r
  end.

Definition sort (l : list A) : list A := fold_right sort_insert [] l.
End Sort.

(** *** Objects used as maps *)

(** An object as the list of its own properties in creation order. *)
Definition Obj (V : Type) := list (string * V).

Section Obj.
Context {V : Type}.

(** [o[k]] for a name [k] the object does not inherit (see [inherited]
    below); [None] for [undefined]. *)
Fixpoint get (k : string) (o : Obj V) : option V :=
  match o with
  | [] => None
  | (k', v) :: r => if String.eqb k k' then Some v else get k r
  end.

(** [o[k] = v]: an existing property keeps its place, a new one is
    created last. *)
Fixpoint set (k : string) (v : V) (o : Obj V) : Obj V :=
  match o with
  | [] => [(k, v)]
  | (k', v') :: r => if String.eqb k k' then (k, v) :: r else (k', v') :: set k v r
  end.

(** [delete o[k]]. *)
Fixpoint delete (k : string) (o : Obj V) : Obj V :=
  match o with
  | [] => []
  | (k', v) :: r => if String.eqb k k' then delete k r else (k', v) :: delete k r
  end.
End Obj.

Definition is_digit (c : ascii) : bool :=
  let n := nat_of_ascii c in ((48 <=? n) && (n <=? 57))%nat.

Fixpoint all_digits (s : string) : bool :=
  match s with
  | EmptyString => true
  | String c r => is_digit c && all_digits r
  end.

(** A property name that is an array index: the canonical decimal text
    of an integer below 2^32 - 1. *)
Definition array_index (k : string) : option Z :=
  match k with
  | EmptyString => None
  | String c r =>
      if all_digits k && (negb (Ascii.eqb c "0") || String.eqb r "") then
        match digits 10 None k with
        | Some v => if v <? 4294967295 then Some v else None
        | None => None
        end
      else None
  end.

Definition is_array_index (k : string) : bool :=
  match array_index k with Some _ => true | None => false end.

Definition index_cmp (a b : string) : Z :=
  match array_index a, array_index b with
  | Some x, Some y => x - y
  | _, _ => 0
  end.

(** [Object.keys(o)]: the array indices in ascending order, then the
    other names in creation order. *)
Definition keys {V} (o : Obj V) : list string :=
  let ks := map fst o in
  sort index_cmp (filter is_array_index ks)
    ++ filter (fun k => negb (is_array_index k)) ks.

(** *** Where the model stops *)

(** The names a plain object inherits from [Object.prototype].  For them
    [o[k]] is never [undefined], whatever [o] holds: a handler that takes
    the value for a session throws.  [get] stands for [o[k]] at the other
    names only, and the statements about a session named by a request
    exclude these. *)
Definition inherited_names : list string :=
  ["constructor"; "__proto__"; "toString"; "toLocaleString"; "valueOf";
   "hasOwnProperty"; "isPrototypeOf"; "propertyIsEnumerable";
   "__defineGetter__"; "__defineSetter__"; "__lookupGetter__";
   "__lookupSetter__"].

Definition inherited (k : string) : bool :=
  existsb (String.eqb k) inherited_names.

(** [Number.MAX_SAFE_INTEGER], 2^53 - 1: up to it the numbers of the code
    (doubles) are the integers of the model. *)
Definition MAX_SAFE_INTEGER : Z := 9007199254740991.

(** Text on which the string functions of the model are those of
    JavaScript: UTF-8 in which every character is an ASCII character or a
    CJK ideograph (U+4E00 to U+9FFF, three bytes from E4 B8 80 to
    E9 BF BF), which has no case and is no white space. *)
Fixpoint plain (s : string) : bool :=
  match s with
  | EmptyString => true
  | String c r =>
      let n := nat_of_ascii c in
      if (n <? 128)%nat then plain r
      else
        match r with
        | String c2 (String c3 r') =>
            let n2 := nat_of_ascii c2 in
            let n3 := nat_of_ascii c3 in
            (((n =? 228) && (184 <=? n2) && (n2 <=? 191)
              || (229 <=? n) && (n <=? 233) && (128 <=? n2) && (n2 <=? 191))
             && (128 <=? n3) && (n3 <=? 191))%nat
            && plain r'
        | _ => false
        end
  end.

End JS.

(** ** Data model: what [dbData] holds *)

(** The three values the handlers give to a session's [status]. *)
Inductive Status : Type := draft | ready | submitted.

Definition status_text (s : Status) : string :=
  match s with
  | draft => "draft"
  | ready => "ready"
  | submitted => "submitted"
  end.

Module Photo.
Record t : Type := mk {
  id : string;
  url : string;
  filename : string;
  selected : bool
}.

Definition with_selected (b : bool) (p : t) : t :=
  {| id := id p; url := url p; filename := filename p; selected := b |}.
End Photo.

Module Session.
(** [createdAt] is written by [new Date().toISOString()] and only read back
    through [new Date(createdAt)]: the model keeps the instant, in
    milliseconds. *)
Record t : Type := mk {
  customerName : string;
  photos : list Photo.t;
  status : Status;
  createdAt : Z
}.

Definition with_customerName (n : string) (s : t) : t :=
  {| customerName := n; photos := photos s; status := status s;
     createdAt := createdAt s |}.

Definition with_photos (ps : list Photo.t) (s : t) : t :=
  {| customerName := customerName s; photos := ps; status := status s;
     createdAt := createdAt s |}.

Definition with_status (st : Status) (s : t) : t :=
  {| customerName := customerName s; photos := photos s; status := st;
     createdAt := createdAt s |}.
End Session.

Module PortfolioItem.
Record t : Type := mk {
  id : string;
  title : string;
  description : string;
  category : string;
  url : string;
  filename : string;
  createdAt : Z
}.
End PortfolioItem.

Record DB : Type := mkDB {
  sessions : JS.Obj Session.t;
  portfolioItems : list PortfolioItem.t
}.

(** ** The process and its environment *)

Inductive Level : Type := log | warn | error.

(** One constructor for each message the handlers write to the console,
    with the values the message interpolates. *)
Inductive Event : Type :=
| SaveDone
| SaveFailed
| Uploaded (photoId sessionId customerName : string)
| SessionEmptied (sessionId : string)
| PhotoFileDeleted (photoId filename : string)
| FileDeleted (filename : string)
| FileMissing (filePath : string)
| FileDeleteFailed (filePath code : string)
| SessionDeleted (sessionId : string)
| SessionReady (sessionId : string)
| PhotosListed (sessionId : string)
| SelectionSubmitted (sessionId : string) (selectedPhotoIds : list JS.JSON)
| QRCodeDone (qrCodeUrl : string)
| QRCodeFailed
| PortfolioUploaded (count : nat) (category : option string)
| PortfolioFileDeleted (id filename : string).

(** The state of the process: the in-memory [dbData], the document last
    written to [db.json] ([None] before the first write) and the console. *)
Record World : Type := mkWorld {
  dbData : DB;
  db_json : option DB;
  console : list (Level * Event)
}.

(** How [fs.unlink] settles: fulfilled, or rejected with an error code. *)
Inductive UnlinkResult : Type :=
| Unlinked
| UnlinkError (code : string).

(** What the outside world answers while one request is served: the
    identifiers [uuidv4()] returns and the instants [new Date()] reads (by
    call number), how each [fs.unlink] settles (by call number and path),
    whether [fs.writeFile] and [qrcode.toFile] succeed. *)
Record Env : Type := mkEnv {
  uuidv4 : nat -> string;
  Date_now : nat -> Z;
  fs_unlink : nat -> string -> UnlinkResult;
  fs_writeFile : bool;
  qrcode_toFile : bool
}.

Record Response : Type := mkResponse {
  http_status : Z;
  body : JS.JSON
}.

Definition PORT : string := "3000".
Definition DEBUG_MODE : bool := true.
Definition BASE_URL : string :=
  if DEBUG_MODE then "http://localhost:" ++ PORT else "http://47.107.129.145".
Definition UPLOAD_DIR : string := "uploads".
Definition QRCODE_DIR : string := "qrcodes".
Definition PORTFOLIO_DIR : string := "portfolio_uploads".

(** [path.join] of a directory and a file name. *)
Definition path_join (dir name : string) : string := dir ++ "/" ++ name.

(** The customer name of a session created without one. *)
Definition unknown_customer : string := "未知客户".

Definition set_dbData (db : DB) (w : World) : World :=
  {| dbData := db; db_json := db_json w; console := console w |}.

Definition set_sessions (ss : JS.Obj Session.t) (w : World) : World :=
  set_dbData {| sessions := ss; portfolioItems := portfolioItems (dbData w) |} w.

Definition set_portfolioItems (items : list PortfolioItem.t) (w : World)
    : World :=
  set_dbData {| sessions := sessions (dbData w); portfolioItems := items |} w.

Definition console_write (lv : Level) (ev : Event) (w : World) : World :=
  {| dbData := dbData w; db_json := db_json w;
     console := console w ++ [(lv, ev)] |}.

(** [dbData.sessions[k]] changed in place; nothing happens when it is
    absent (every use follows a successful lookup of [k]). *)
Definition modify_session (k : string) (f : Session.t -> Session.t)
    (w : World) : World :=
  match JS.get k (sessions (dbData w)) with
  | Some s => set_sessions (JS.set k (f s) (sessions (dbData w))) w
  | None => w
  end.

(** [saveData]: the whole of [dbData] is written to [db.json]; a failure is
    caught and logged, and is taken to leave the file as it was. *)
Definition saveData (e : Env) (w : World) : World :=
  if fs_writeFile e then
    console_write log SaveDone
      {| dbData := dbData w; db_json := Some (dbData w); console := console w |}
  else console_write error SaveFailed w.

Definition createNewSession (e : Env) (sessionId customerName : string)
    (w : World) : World :=
  set_sessions
    (JS.set sessionId
       {| Session.customerName := customerName; Session.photos := [];
          Session.status := draft; Session.createdAt := Date_now e 0 |}
       (sessions (dbData w))) w.

(** The [try { await fs.unlink(filePath) } catch (err) { ... }] of the
    three deletion handlers: whatever the outcome, only the console line
    differs.  [done] is the line of the success branch. *)
Definition unlink_quietly (r : UnlinkResult) (done : Event)
    (filePath : string) (w : World) : World :=
  match r with
  | Unlinked => console_write log done w
  | UnlinkError code =>
      if String.eqb code "ENOENT" then console_write warn (FileMissing filePath) w
      else console_write error (FileDeleteFailed filePath code) w
  end.

(** ** Responses *)

Definition failure (message : string) : JS.JSON :=
  JS.JObj [("code", JS.JNum 1); ("message", JS.JStr message)].

Definition success (message : string) (more : list (string * JS.JSON))
    : JS.JSON :=
  JS.JObj (("code", JS.JNum 0) :: ("message", JS.JStr message) :: more).

Definition respond (code : Z) (b : JS.JSON) : Response :=
  {| http_status := code; body := b |}.

(** A request parameter that passes the [!x] test: a non-empty string. *)
Definition present (v : option string) : option string :=
  match v with
  | Some s => if String.eqb s "" then None else Some s
  | None => None
  end.

(** ** The handlers *)

(** [POST /upload]: [file] is the name multer stored the upload under,
    [sessionId] and [customerName] are the fields of the form. *)
Definition post_upload (e : Env) (file sessionId customerName : option string)
    (w : World) : Response * World :=
  match file with
  | None => (respond 400 (failure "没有接收到文件"), w)
  | Some filename =>
      let photoId := uuidv4 e 0 in
      let customerName := JS.or_default customerName unknown_customer in
      let '(currentSessionId, w1) :=
        match present sessionId with
        | None =>
            let sid := uuidv4 e 1 in
            (sid, createNewSession e sid customerName w)
        | Some sid =>
            match JS.get sid (sessions (dbData w)) with
            | None => (sid, createNewSession e sid customerName w)
            | Some s =>
                (sid,
                 if negb (String.eqb customerName "")
                    && String.eqb (Session.customerName s) unknown_customer
                 then modify_session sid
                        (Session.with_customerName customerName) w
                 else w)
            end
        end in
      let photoUrl := BASE_URL ++ "/uploads/" ++ filename in
      let photo :=
        {| Photo.id := photoId; Photo.url := photoUrl;
           Photo.filename := filename; Photo.selected := false |} in
      let w2 :=
        modify_session currentSessionId
          (fun s => Session.with_photos (Session.photos s ++ [photo]) s) w1 in
      let w3 := saveData e w2 in
      let w4 :=
        console_write log (Uploaded photoId currentSessionId customerName) w3 in
      (respond 200
         (success "success"
            [("photoId", JS.JStr photoId); ("photoUrl", JS.JStr photoUrl);
             ("sessionId", JS.JStr currentSessionId)]),
       w4)
  end.

(** [DELETE /photo/:sessionId/:photoId]. *)
Definition delete_photo (e : Env) (sessionId photoId : string) (w : World)
    : Response * World :=
  match JS.get sessionId (sessions (dbData w)) with
  | None => (respond 404 (failure "会话不存在"), w)
  | Some s =>
      let sessionPhotos := Session.photos s in
      match JS.findIndex (fun p => String.eqb (Photo.id p) photoId)
              sessionPhotos with
      | None => (respond 404 (failure "照片不存在于该会话中"), w)
      | Some (photoIndex, photoToDelete) =>
          let filename := Photo.filename photoToDelete in
          let filePath := path_join UPLOAD_DIR filename in
          let spliced := JS.splice1 photoIndex sessionPhotos in
          let w1 := modify_session sessionId (Session.with_photos spliced) w in
          let w2 :=
            if (length spliced =? 0)%nat then
              console_write log (SessionEmptied sessionId)
                (set_sessions (JS.delete sessionId (sessions (dbData w1))) w1)
            else w1 in
          let w3 :=
            unlink_quietly (fs_unlink e 0 filePath)
              (PhotoFileDeleted photoId filename) filePath w2 in
          let w4 := saveData e w3 in
          (respond 200 (success "照片删除成功" []), w4)
      end
  end.

(** The [fs.unlink] of every photo of a session, each with its own
    [catch].  The code starts them together and each writes its console
    line when it settles; the model takes them in the order of the photos,
    one of the orders they can settle in. *)
Fixpoint unlink_all (e : Env) (i : nat) (ps : list Photo.t) (w : World) : World :=
  match ps with
  | [] => w
  | photo :: r =>
      let filePath := path_join UPLOAD_DIR (Photo.filename photo) in
      unlink_all e (S i) r
        (unlink_quietly (fs_unlink e i filePath)
           (FileDeleted (Photo.filename photo)) filePath w)
  end.

(** [DELETE /session/:sessionId]. *)
Definition delete_session (e : Env) (sessionId : string) (w : World)
    : Response * World :=
  match JS.get sessionId (sessions (dbData w)) with
  | None => (respond 404 (failure "会话不存在"), w)
  | Some sessionToDelete =>
      let photosToDelete := Session.photos sessionToDelete in
      let w1 := unlink_all e 0 photosToDelete w in
      let w2 := set_sessions (JS.delete sessionId (sessions (dbData w1))) w1 in
      let w3 := saveData e w2 in
      let w4 := console_write log (SessionDeleted sessionId) w3 in
      (respond 200 (success "会话及其所有照片删除成功" []), w4)
  end.

(** [POST /finishSession]. *)
Definition post_finishSession (e : Env) (sessionId : option string) (w : World)
    : Response * World :=
  match present sessionId with
  | None => (respond 404 (failure "会话不存在"), w)
  | Some sid =>
      match JS.get sid (sessions (dbData w)) with
      | None => (respond 404 (failure "会话不存在"), w)
      | Some s =>
          if (length (Session.photos s) =? 0)%nat then
            (respond 400 (failure "会话中没有照片，无法完成"), w)
          else
            let w1 := modify_session sid (Session.with_status ready) w in
            let w2 := saveData e w1 in
            let w3 := console_write log (SessionReady sid) w2 in
            (respond 200 (success "会话已完成，客户可以选片了！" []), w3)
      end
  end.

(** *** Listing sessions *)

Module Summary.
(** One element of the [sessions] array of [GET /sessions]. *)
Record t : Type := mk {
  id : string;
  customerName : string;
  status : Status;
  photoCount : nat;
  createdAt : Z
}.

Definition to_json (s : t) : JS.JSON :=
  JS.JObj
    [("id", JS.JStr (id s)); ("customerName", JS.JStr (customerName s));
     ("status", JS.JStr (status_text (status s)));
     ("photoCount", JS.JNum (Z.of_nat (photoCount s)));
     ("createdAt", JS.JDate (createdAt s))].
End Summary.

(** [Object.keys(dbData.sessions).map(id => ({...}))]; each key is looked
    up again, which cannot fail. *)
Definition summaries (ss : JS.Obj Session.t) : list Summary.t :=
  flat_map
    (fun id =>
       match JS.get id ss with
       | Some s =>
           [ {| Summary.id := id;
                Summary.customerName := Session.customerName s;
                Summary.status := Session.status s;
                Summary.photoCount := length (Session.photos s);
                Summary.createdAt := Session.createdAt s |} ]
       | None => []
       end)
    (JS.keys ss).

(** The comparator [(a, b) => new Date(b.createdAt) - new Date(a.createdAt)]. *)
Definition newest_first (a b : Summary.t) : Z :=
  Summary.createdAt b - Summary.createdAt a.

(** [if (status && status !== 'all') ... filter(s => s.status === status)]. *)
Definition filter_status (status : option string) (l : list Summary.t)
    : list Summary.t :=
  match present status with
  | Some st =>
      if negb (String.eqb st "all") then
        filter (fun s => String.eqb (status_text (Summary.status s)) st) l
      else l
  | None => l
  end.

(** [if (search) ...]: both sides are lowered, then [includes]. *)
Definition filter_search (search : option string) (l : list Summary.t)
    : list Summary.t :=
  match present search with
  | Some q =>
      let lowerCaseSearch := JS.toLowerCase q in
      filter
        (fun s =>
           JS.includes (JS.toLowerCase (Summary.id s)) lowerCaseSearch
           || JS.includes (JS.toLowerCase (Summary.customerName s))
                lowerCaseSearch)
        l
  | None => l
  end.

(** The sorted array before it is cut into pages. *)
Definition filteredSessions (status search : option string) (db : DB)
    : list Summary.t :=
  JS.sort newest_first
    (filter_search search (filter_status status (summaries (sessions db)))).

Module Page.
(** What [GET /sessions] answers with, before serialisation. *)
Record t : Type := mk {
  sessions : list Summary.t;
  total : nat;
  page : JS.Number;
  limit : JS.Number
}.
End Page.

(** The body of [GET /sessions] up to the call of [res.json]; [page] and
    [limit] default to the numbers 1 and 10 when the query has none. *)
Definition list_sessions (status search page limit : option string) (db : DB)
    : Page.t :=
  let sorted := filteredSessions status search db in
  let startIndex :=
    JS.num_mul (JS.num_sub (JS.parseInt page 1) (Some 1)) (JS.parseInt limit 10) in
  let endIndex := JS.num_add startIndex (JS.parseInt limit 10) in
  {| Page.sessions := JS.slice sorted startIndex endIndex;
     Page.total := length sorted;
     Page.page := JS.parseInt page 1;
     Page.limit := JS.parseInt limit 10 |}.

(** [GET /sessions]. *)
Definition get_sessions (status search page limit : option string) (w : World)
    : Response * World :=
  let r := list_sessions status search page limit (dbData w) in
  (respond 200
     (success "success"
        [("sessions", JS.JArr (map Summary.to_json (Page.sessions r)));
         ("total", JS.JNum (Z.of_nat (Page.total r)));
         ("page", JS.JNumber (Page.page r));
         ("limit", JS.JNumber (Page.limit r))]),
   w).

(** *** Photos of a session, selection, QR code *)

Definition is_draft (s : Status) : bool :=
  match s with draft => true | _ => false end.

(** What [GET /photos] sends for one photo. *)
Definition photo_for_client (p : Photo.t) : JS.JSON :=
  JS.JObj
    [("id", JS.JStr (Photo.id p)); ("url", JS.JStr (Photo.url p));
     ("selected", JS.JBool (Photo.selected p))].

(** [GET /photos]: [clientType] is the [x-client-type] header. *)
Definition get_photos (sessionId clientType : option string) (w : World)
    : Response * World :=
  match present sessionId with
  | None => (respond 404 (failure "选片码无效或会话不存在"), w)
  | Some sid =>
      match JS.get sid (sessions (dbData w)) with
      | None => (respond 404 (failure "选片码无效或会话不存在"), w)
      | Some s =>
          let isPhotographer :=
            match clientType with
            | Some v => String.eqb v "photographer"
            | None => false
            end in
          if is_draft (Session.status s) && negb isPhotographer then
            (respond 403 (failure "该选片码尚未准备好，请联系摄影师"), w)
          else
            let photosForClient := map photo_for_client (Session.photos s) in
            (respond 200
               (success "success" [("photos", JS.JArr photosForClient)]),
             console_write log (PhotosListed sid) w)
      end
  end.

(** [photos.forEach(photo => { photo.selected = ids.includes(photo.id) })]. *)
Definition mark_selected (ids : list JS.JSON) (s : Session.t) : Session.t :=
  Session.with_photos
    (map (fun photo =>
            Photo.with_selected (JS.array_includes ids (Photo.id photo)) photo)
       (Session.photos s))
    s.

(** [POST /submitSelection]: [selectedPhotoIds] is whatever the body
    holds under that name, [None] when it holds nothing. *)
Definition post_submitSelection (e : Env) (sessionId : option string)
    (selectedPhotoIds : option JS.JSON) (w : World) : Response * World :=
  match present sessionId with
  | None => (respond 404 (failure "选片码无效或会话不存在"), w)
  | Some sid =>
      match JS.get sid (sessions (dbData w)) with
      | None => (respond 404 (failure "选片码无效或会话不存在"), w)
      | Some _ =>
          match selectedPhotoIds with
          | Some (JS.JArr ids) =>
              let w1 := modify_session sid (mark_selected ids) w in
              let w2 := modify_session sid (Session.with_status submitted) w1 in
              let w3 := saveData e w2 in
              let w4 := console_write log (SelectionSubmitted sid ids) w3 in
              (respond 200 (success "选片结果提交成功！" []), w4)
          | _ => (respond 400 (failure "selectedPhotoIds 必须是数组"), w)
          end
      end
  end.

(** [POST /generateQRCode]. *)
Definition post_generateQRCode (e : Env) (sessionId page : option string)
    (w : World) : Response * World :=
  match present sessionId, present page with
  | Some sid, Some _ =>
      let no_photo :=
        match JS.get sid (sessions (dbData w)) with
        | None => true
        | Some s => (length (Session.photos s) =? 0)%nat
        end in
      if no_photo then
        (respond 400
           (failure "会话不存在或会话中没有照片，无法生成二维码"), w)
      else
        let qrCodeFileName := "qrcode-" ++ sid ++ ".png" in
        let qrCodeUrl := BASE_URL ++ "/qrcodes/" ++ qrCodeFileName in
        if qrcode_toFile e then
          (respond 200 (success "success" [("qrCodeUrl", JS.JStr qrCodeUrl)]),
           console_write log (QRCodeDone qrCodeUrl) w)
        else
          (respond 500 (failure "生成二维码失败"),
           console_write error QRCodeFailed w)
  | _, _ => (respond 400 (failure "sessionId 和 page 不能为空"), w)
  end.

(** *** Portfolio *)

Definition item_to_json (it : PortfolioItem.t) : JS.JSON :=
  JS.JObj
    [("id", JS.JStr (PortfolioItem.id it));
     ("title", JS.JStr (PortfolioItem.title it));
     ("description", JS.JStr (PortfolioItem.description it));
     ("category", JS.JStr (PortfolioItem.category it));
     ("url", JS.JStr (PortfolioItem.url it));
     ("filename", JS.JStr (PortfolioItem.filename it));
     ("createdAt", JS.JDate (PortfolioItem.createdAt it))].

(** The items one [POST /portfolio/upload] makes of its files, the [i]-th
    with the [i]-th identifier and instant. *)
Fixpoint new_items (e : Env) (i : nat) (category : option string)
    (files : list string) : list PortfolioItem.t :=
  match files with
  | [] => []
  | filename :: r =>
      {| PortfolioItem.id := uuidv4 e i;
         PortfolioItem.title := "作品";
         PortfolioItem.description := "";
         PortfolioItem.category := JS.or_default category "未分类";
         PortfolioItem.url := BASE_URL ++ "/portfolio_uploads/" ++ filename;
         PortfolioItem.filename := filename;
         PortfolioItem.createdAt := Date_now e i |}
      :: new_items e (S i) category r
  end.

(** [POST /portfolio/upload]: [files] are the names of the stored files. *)
Definition post_portfolio_upload (e : Env) (files : list string)
    (category : option string) (w : World) : Response * World :=
  if (length files =? 0)%nat then
    (respond 400 (failure "没有接收到文件"), w)
  else
    let items := new_items e 0 category files in
    let w1 := set_portfolioItems (portfolioItems (dbData w) ++ items) w in
    let w2 := saveData e w1 in
    let w3 := console_write log (PortfolioUploaded (length files) category) w2 in
    let uploadedItems :=
      map (fun it =>
             JS.JObj [("itemId", JS.JStr (PortfolioItem.id it));
                      ("itemUrl", JS.JStr (PortfolioItem.url it))])
        items in
    (respond 200 (success "success" [("uploadedItems", JS.JArr uploadedItems)]),
     w3).

Definition newest_item_first (a b : PortfolioItem.t) : Z :=
  PortfolioItem.createdAt b - PortfolioItem.createdAt a.

(** [GET /portfolio].  With a category the sort works on the copy [filter]
    made; without one [filteredItems] is [dbData.portfolioItems] itself and
    the sort reorders the stored array. *)
Definition get_portfolio (category : option string) (w : World)
    : Response * World :=
  let answer items :=
    respond 200
      (success "success"
         [("portfolioItems", JS.JArr (map item_to_json items))]) in
  let in_place :=
    let sorted := JS.sort newest_item_first (portfolioItems (dbData w)) in
    (answer sorted, set_portfolioItems sorted w) in
  match present category with
  | Some c =>
      if negb (String.eqb c "all") then
        let filteredItems :=
          filter (fun item => String.eqb (PortfolioItem.category item) c)
            (portfolioItems (dbData w)) in
        (answer (JS.sort newest_item_first filteredItems), w)
      else in_place
  | None => in_place
  end.

(** [DELETE /portfolio/:id]. *)
Definition delete_portfolio (e : Env) (id : string) (w : World)
    : Response * World :=
  match JS.findIndex (fun item => String.eqb (PortfolioItem.id item) id)
          (portfolioItems (dbData w)) with
  | None => (respond 404 (failure "作品不存在"), w)
  | Some (itemIndex, itemToDelete) =>
      let filename := PortfolioItem.filename itemToDelete in
      let filePath := path_join PORTFOLIO_DIR filename in
      let w1 :=
        set_portfolioItems (JS.splice1 itemIndex (portfolioItems (dbData w))) w in
      let w2 :=
        unlink_quietly (fs_unlink e 0 filePath)
          (PortfolioFileDeleted id filename) filePath w1 in
      let w3 := saveData e w2 in
      (respond 200 (success "作品删除成功" []), w3)
  end.

(** ** The server as a transition system *)

(** The requests the routes accept, with the parts of them the handlers
    read.  Identifiers, names and query parameters are strings, [None] when
    the request has none. *)
Inductive Request : Type :=
| Upload (file sessionId customerName : option string)
| DeletePhoto (sessionId photoId : string)
| DeleteSession (sessionId : string)
| FinishSession (sessionId : option string)
| ListSessions (status search page limit : option string)
| ListPhotos (sessionId clientType : option string)
| SubmitSelection (sessionId : option string) (selectedPhotoIds : option JS.JSON)
| GenerateQRCode (sessionId page : option string)
| PortfolioUpload (files : list string) (category : option string)
| ListPortfolio (category : option string)
| DeletePortfolio (id : string).

Definition handle (e : Env) (r : Request) (w : World) : Response * World :=
  match r with
  | Upload file sessionId customerName =>
      post_upload e file sessionId customerName w
  | DeletePhoto sessionId photoId => delete_photo e sessionId photoId w
  | DeleteSession sessionId => delete_session e sessionId w
  | FinishSession sessionId => post_finishSession e sessionId w
  | ListSessions status search page limit =>
      get_sessions status search page limit w
  | ListPhotos sessionId clientType => get_photos sessionId clientType w
  | SubmitSelection sessionId selectedPhotoIds =>
      post_submitSelection e sessionId selectedPhotoIds w
  | GenerateQRCode sessionId page => post_generateQRCode e sessionId page w
  | PortfolioUpload files category => post_portfolio_upload e files category w
  | ListPortfolio category => get_portfolio category w
  | DeletePortfolio id => delete_portfolio e id w
  end.

(** The process as the module initialises it: [dbData] is
    [{ sessions: {}, portfolioItems: [] }] and nothing has been written. *)
Definition empty_db : DB := {| sessions := []; portfolioItems := [] |}.

Definition fresh_world : World :=
  {| dbData := empty_db; db_json := None; console := [] |}.

(** The states the server goes through from [w0], one request after the
    other, whatever the environment answers. *)
Inductive reachable (w0 : World) : World -> Prop :=
| reach_start : reachable w0 w0
| reach_step : forall w e r,
    reachable w0 w -> reachable w0 (snd (handle e r w)).

(** The session stored under [sid], if any. *)
Definition session_of (w : World) (sid : string) : option Session.t :=
  JS.get sid (sessions (dbData w)).

(** ** Notions the statements use *)

(** The photo record [POST /upload] appends for the stored file. *)
Definition uploaded_photo (e : Env) (filename : string) : Photo.t :=
  {| Photo.id := uuidv4 e 0;
     Photo.url := BASE_URL ++ "/uploads/" ++ filename;
     Photo.filename := filename;
     Photo.selected := false |}.

(** The environment [e] with another answer to every [fs.unlink]. *)
Definition with_unlink (u : nat -> string -> UnlinkResult) (e : Env) : Env :=
  {| uuidv4 := uuidv4 e; Date_now := Date_now e; fs_unlink := u;
     fs_writeFile := fs_writeFile e; qrcode_toFile := qrcode_toFile e |}.

(** The three routes that delete a record and its file. *)
Definition is_deletion (r : Request) : Prop :=
  match r with
  | DeletePhoto _ _ | DeleteSession _ | DeletePortfolio _ => True
  | _ => False
  end.

(** Every stored session has a photo. *)
Definition no_empty_session (w : World) : Prop :=
  forall sid s, session_of w sid = Some s -> Session.photos s <> [].

(** How one request can change what is stored under the id [k]: not at
    all, by deleting it, by creating it as a draft with one photo, by adding
    or removing a photo, by marking it ready, by recording a selection. *)
Inductive session_change (e : Env) (r : Request) (k : string)
  : option Session.t -> option Session.t -> Prop :=
| change_none o : session_change e r k o o
| change_deleted s :
    r = DeleteSession k \/ (exists pid, r = DeletePhoto k pid) ->
    session_change e r k (Some s) None
| change_created o s' file sessionId name :
    r = Upload (Some file) sessionId name ->
    (present sessionId = Some k /\ o = None)
    \/ (present sessionId = None /\ k = uuidv4 e 1) ->
    Session.status s' = draft ->
    length (Session.photos s') = 1%nat ->
    session_change e r k o (Some s')
| change_photo_added s s' p file sessionId name :
    r = Upload (Some file) sessionId name ->
    Session.status s' = Session.status s ->
    Session.photos s' = (Session.photos s ++ [p])%list ->
    session_change e r k (Some s) (Some s')
| change_photo_removed s i pid :
    r = DeletePhoto k pid ->
    JS.splice1 i (Session.photos s) <> [] ->
    session_change e r k (Some s)
      (Some (Session.with_photos (JS.splice1 i (Session.photos s)) s))
| change_finished s :
    r = FinishSession (Some k) ->
    Session.photos s <> [] ->
    session_change e r k (Some s) (Some (Session.with_status ready s))
| change_submitted s ids :
    r = SubmitSelection (Some k) (Some (JS.JArr ids)) ->
    session_change e r k (Some s)
      (Some (Session.with_status submitted (mark_selected ids s))).





(** ** Code around the routes: multer's destination, [loadData] *)

(** The [destination] callback of the multer storage: the directory an
    upload is stored in, chosen from [req.originalUrl]; [None] is the
    'Invalid upload path' error. *)
Definition destination (originalUrl : string) : option string :=
  if JS.startsWith "/upload" originalUrl then Some UPLOAD_DIR
  else if JS.startsWith "/portfolio/upload" originalUrl then Some PORTFOLIO_DIR
  else None.

(** What [JSON.parse] made of [db.json]: the sessions, and the portfolio
    items when the document has them. *)
Record Document : Type := mkDocument {
  doc_sessions : JS.Obj Session.t;
  doc_portfolioItems : option (list PortfolioItem.t)
}.

(** How [fs.readFile] followed by [JSON.parse] ends: with a document, or
    with an error and its [code], if it has one (a syntax error has none). *)
Inductive ReadResult : Type :=
| ReadParsed (doc : Document)
| ReadFailed (code : option string).

(** The console lines of [loadData] itself. *)
Inductive LoadEvent : Type := DataLoaded | FileAbsent | LoadFailed.

(** [loadData]: the document read becomes [dbData], with an empty portfolio
    when it has none; without a file the empty database is written out at
    once; after any other failure the empty database is used and nothing is
    written. *)
Definition loadData (e : Env) (read : ReadResult) (w : World)
    : list (Level * LoadEvent) * World :=
  match read with
  | ReadParsed doc =>
      ([(log, DataLoaded)],
       set_dbData
         {| sessions := doc_sessions doc;
            portfolioItems :=
              match doc_portfolioItems doc with
              | Some items => items
              | None => []
              end |} w)
  | ReadFailed code =>
      match code with
      | Some c =>
          if String.eqb c "ENOENT" then
            ([(warn, FileAbsent)], saveData e (set_dbData empty_db w))
          else ([(error, LoadFailed)], set_dbData empty_db w)
      | None => ([(error, LoadFailed)], set_dbData empty_db w)
      end
  end.

(** The properties of an object in the order of [Object.keys], which is
    the order [JSON.stringify] writes them in and [JSON.parse] creates them
    in again. *)
Definition entries {V} (o : JS.Obj V) : JS.Obj V :=
  flat_map
    (fun k => match JS.get k o with Some v => [(k, v)] | None => [] end)
    (JS.keys o).

(** What [JSON.parse] reads back from the text [saveData] wrote for [db]. *)
Definition stored (db : DB) : Document :=
  {| doc_sessions := entries (sessions db);
     doc_portfolioItems := Some (portfolioItems db) |}.

(** ** More notions for statements *)

(** The environment [e] with another outcome of [fs.writeFile]. *)
Definition with_writeFile (b : bool) (e : Env) : Env :=
  {| uuidv4 := uuidv4 e; Date_now := Date_now e; fs_unlink := fs_unlink e;
     fs_writeFile := b; qrcode_toFile := qrcode_toFile e |}.

(** The routes that only read [dbData.sessions] and [dbData.portfolioItems]
    by their code. *)
Definition is_read_only (r : Request) : Prop :=
  match r with
  | ListSessions _ _ _ _ | ListPhotos _ _ | GenerateQRCode _ _ => True
  | _ => False
  end.

(** What a search needs for the model to read text as the code does: the
    search text, the stored ids and the customer names are [JS.plain].
    Nothing is asked when there is no search. *)
Definition plain_search (search : option string) (db : DB) : Prop :=
  match present search with
  | None => True
  | Some q =>
      JS.plain q = true /\
      forall sid s,
        JS.get sid (sessions db) = Some s ->
        JS.plain sid = true /\ JS.plain (Session.customerName s) = true
  end.

(** A request parameter that, when given, is not a name every object
    inherits. *)
Definition own_name (sessionId : option string) : Prop :=
  forall sid, sessionId = Some sid -> JS.inherited sid = false.

(** [db.json] holds what is in memory. *)
Definition in_sync (w : World) : Prop := db_json w = Some (dbData w).

(** The category filter of the portfolio listing: a category that is given,
    not empty and not "all" must be the item's own. *)
Definition category_selects (category : option string) (it : PortfolioItem.t)
    : Prop :=
  match category with
  | None => True
  | Some c => c = "" \/ c = "all" \/ c = PortfolioItem.category it
  end.

Definition item_not_older (a b : PortfolioItem.t) : Prop :=
  PortfolioItem.createdAt b <= PortfolioItem.createdAt a.


(** ** A small studio, for concrete runs *)

Module Example.
(** An environment in which every external call succeeds. *)
Definition env : Env :=
  {| uuidv4 := fun n => if (n =? 0)%nat then "photo-2" else "session-2";
     Date_now := fun _ => 1700000000000;
     fs_unlink := fun _ _ => Unlinked;
     fs_writeFile := true;
     qrcode_toFile := true |}.

(** The same, except that every [fs.unlink] is refused. *)
Definition env_eperm : Env :=
  {| uuidv4 := uuidv4 env; Date_now := Date_now env;
     fs_unlink := fun _ _ => UnlinkError "EPERM";
     fs_writeFile := true; qrcode_toFile := true |}.

Definition photo1 : Photo.t :=
  {| Photo.id := "photo-1";
     Photo.url := "http://localhost:3000/uploads/file-1.jpg";
     Photo.filename := "file-1.jpg";
     Photo.selected := true |}.

Definition session1 (st : Status) : Session.t :=
  {| Session.customerName := "Ann"; Session.photos := [photo1];
     Session.status := st; Session.createdAt := 1690000000000 |}.

(** One session, "session-1", with one photo, in the given status. *)
Definition world (st : Status) : World :=
  {| dbData := {| sessions := [("session-1", session1 st)]; portfolioItems := [] |};
     db_json := None; console := [] |}.

(** The fresh process after one upload that names no session. *)
Definition after_upload : World :=
  snd (handle env (Upload (Some "file-2.jpg") None (Some "Bo")) fresh_world).

Definition photo2 : Photo.t :=
  {| Photo.id := "photo-2";
     Photo.url := "http://localhost:3000/uploads/file-2.jpg";
     Photo.filename := "file-2.jpg";
     Photo.selected := false |}.

Definition session2 : Session.t :=
  {| Session.customerName := "Bo"; Session.photos := [photo2];
     Session.status := draft; Session.createdAt := 1700000000000 |}.

(** Two sessions, the second created later. *)
Definition two_sessions : DB :=
  {| sessions :=
       [("session-1", session1 ready);
        ("session-2",
         {| Session.customerName := "Bo"; Session.photos := [photo2];
            Session.status := draft; Session.createdAt := 1700000000000 |})];
     portfolioItems := [] |}.

(** Two uploads to the portfolio, the second file stored a second later. *)
Definition env_portfolio : Env :=
  {| uuidv4 := fun n => if (n =? 0)%nat then "item-1" else "item-2";
     Date_now := fun n => 1700000000000 + 1000 * Z.of_nat n;
     fs_unlink := fun _ _ => Unlinked;
     fs_writeFile := true;
     qrcode_toFile := true |}.

Definition with_portfolio : World :=
  snd (handle env_portfolio (PortfolioUpload ["a.jpg"; "b.jpg"] None)
         (world ready)).
End Example.

(** * Properties *)

(** ** Objects as maps *)

Section ObjFacts.
Context {V : Type}.
Implicit Types (o : JS.Obj V) (k : string) (v : V).

Lemma get_set_same k v o : JS.get k (JS.set k v o) = Some v.
Proof.
  induction o as [|[k' v'] o IH]; simpl.
  - now rewrite String.eqb_refl.
  - destruct (String.eqb k k') eqn:E; simpl; rewrite ?E, ?String.eqb_refl; auto.
Qed.

Lemma get_set_other k k' v o : k' <> k -> JS.get k' (JS.set k v o) = JS.get k' o.
Proof.
  intros Hne. apply String.eqb_neq in Hne.
  induction o as [|[k0 v0] o IH]; simpl.
  - now rewrite Hne.
  - destruct (String.eqb k k0) eqn:E; simpl.
    + apply String.eqb_eq in E; subst k0. now rewrite Hne.
    + now rewrite IH.
Qed.

Lemma get_delete_same k o : JS.get k (JS.delete k o) = None.
Proof.
  induction o as [|[k0 v0] o IH]; simpl; auto.
  destruct (String.eqb k k0) eqn:E; simpl; rewrite ?E; auto.
Qed.

Lemma get_delete_other k k' o : k' <> k -> JS.get k' (JS.delete k o) = JS.get k' o.
Proof.
  intros Hne. apply String.eqb_neq in Hne.
  induction o as [|[k0 v0] o IH]; simpl; auto.
  destruct (String.eqb k k0) eqn:E; simpl.
  - apply String.eqb_eq in E; subst k0. now rewrite Hne.
  - now rewrite IH.
Qed.

Lemma set_set k v v' o : JS.set k v' (JS.set k v o) = JS.set k v' o.
Proof.
  induction o as [|[k0 v0] o IH]; simpl.
  - now rewrite String.eqb_refl.
  - destruct (String.eqb k k0) eqn:E; simpl; rewrite ?E, ?String.eqb_refl; auto.
    now rewrite IH.
Qed.

Lemma get_In_fst k v o : JS.get k o = Some v -> In k (map fst o).
Proof.
  induction o as [|[k0 v0] o IH]; simpl; [discriminate|].
  destruct (String.eqb k k0) eqn:E; auto.
  apply String.eqb_eq in E; auto.
Qed.

Lemma In_fst_get k o : In k (map fst o) -> exists v, JS.get k o = Some v.
Proof.
  induction o as [|[k0 v0] o IH]; simpl; [tauto|].
  intros [->|Hin].
  - rewrite String.eqb_refl. eauto.
  - destruct (String.eqb k k0); eauto.
Qed.

Lemma delete_not_In k o : ~ In k (map fst (JS.delete k o)).
Proof.
  intros Hin. apply In_fst_get in Hin as [v Hv].
  now rewrite get_delete_same in Hv.
Qed.
End ObjFacts.

(** ** Sorting *)

Section SortFacts.
Context {A : Type} (cmp : A -> A -> Z).

Lemma sort_insert_perm x l : Permutation (JS.sort_insert cmp x l) (x :: l).
Proof.
  induction l as [|y l IH]; simpl; auto.
  destruct (cmp x y <=? 0); auto.
  rewrite IH. apply perm_swap.
Qed.

Lemma sort_perm l : Permutation (JS.sort cmp l) l.
Proof.
  induction l as [|x l IH]; simpl; auto.
  rewrite sort_insert_perm. now constructor.
Qed.

Lemma sort_length l : length (JS.sort cmp l) = length l.
Proof. apply Permutation_length, sort_perm. Qed.

Lemma sort_In x l : In x (JS.sort cmp l) <-> In x l.
Proof.
  split; apply Permutation_in; [|symmetry]; apply sort_perm.
Qed.

(** The elements a test [f] keeps stay in the order they had, as long as
    [f] never keeps two elements the comparator tells apart. *)
Lemma sort_insert_filter (f : A -> bool) x l :
  (forall y, f x = true -> f y = true -> cmp x y <= 0) ->
  filter f (JS.sort_insert cmp x l) = filter f (x :: l).
Proof.
  intros Hf. induction l as [|y l IH]; simpl; auto.
  destruct (cmp x y <=? 0) eqn:E; simpl; auto.
  simpl in IH. rewrite IH.
  destruct (f x) eqn:Fx, (f y) eqn:Fy; auto.
  specialize (Hf y eq_refl Fy). apply Z.leb_gt in E. lia.
Qed.

Hypothesis cmp_total : forall x y, cmp x y <= 0 \/ cmp y x <= 0.

Lemma sort_insert_sorted x l :
  Sorted (fun a b => cmp a b <= 0) l ->
  Sorted (fun a b => cmp a b <= 0) (JS.sort_insert cmp x l).
Proof.
  induction 1 as [|y l Hs IH Hhd]; simpl.
  - repeat constructor.
  - destruct (cmp x y <=? 0) eqn:E.
    + apply Z.leb_le in E. repeat constructor; auto.
    + apply Z.leb_gt in E. constructor; auto.
      destruct l as [|z l]; simpl in *.
      * constructor. destruct (cmp_total x y); lia.
      * inversion Hhd; subst.
        destruct (cmp x z <=? 0); constructor; auto.
        destruct (cmp_total x y); lia.
Qed.

Lemma sort_sorted l : Sorted (fun a b => cmp a b <= 0) (JS.sort cmp l).
Proof.
  induction l; simpl; [constructor | now apply sort_insert_sorted].
Qed.
End SortFacts.

(** ** What the helpers leave alone *)

Lemma present_Some v s : present v = Some s <-> v = Some s /\ s <> "".
Proof.
  unfold present.
  destruct v as [t|]; [|split; [discriminate | intros [? _]; discriminate]].
  destruct (String.eqb_spec t ""); split.
  - discriminate.
  - intros [[= ->] Hne]. contradiction.
  - intros [= ->]. auto.
  - intros [[= ->] _]. reflexivity.
Qed.

Lemma present_None v : present v = None <-> v = None \/ v = Some "".
Proof.
  unfold present. destruct v as [t|]; [|tauto].
  destruct (String.eqb_spec t ""); subst; split; auto; try discriminate.
  intros [H|[= H]]; [discriminate | contradiction].
Qed.

Lemma dbData_saveData e w : dbData (saveData e w) = dbData w.
Proof. unfold saveData. now destruct (fs_writeFile e). Qed.

Lemma db_json_saveData e w :
  db_json (saveData e w) = if fs_writeFile e then Some (dbData w) else db_json w.
Proof. unfold saveData. now destruct (fs_writeFile e). Qed.

Lemma dbData_unlink_quietly r d p w : dbData (unlink_quietly r d p w) = dbData w.
Proof.
  unfold unlink_quietly. destruct r as [|code]; auto.
  now destruct (String.eqb code "ENOENT").
Qed.

Lemma db_json_unlink_quietly r d p w : db_json (unlink_quietly r d p w) = db_json w.
Proof.
  unfold unlink_quietly. destruct r as [|code]; auto.
  now destruct (String.eqb code "ENOENT").
Qed.

Lemma dbData_unlink_all e ps : forall i w, dbData (unlink_all e i ps w) = dbData w.
Proof.
  induction ps as [|p ps IH]; intros; simpl; auto.
  now rewrite IH, dbData_unlink_quietly.
Qed.

Lemma db_json_unlink_all e ps : forall i w, db_json (unlink_all e i ps w) = db_json w.
Proof.
  induction ps as [|p ps IH]; intros; simpl; auto.
  now rewrite IH, db_json_unlink_quietly.
Qed.

Lemma session_of_modify_same k f w s :
  session_of w k = Some s -> session_of (modify_session k f w) k = Some (f s).
Proof.
  unfold session_of, modify_session. intros ->. simpl. apply get_set_same.
Qed.

Lemma session_of_modify_other k k' f w :
  k' <> k -> session_of (modify_session k f w) k' = session_of w k'.
Proof.
  unfold session_of, modify_session. intros Hne.
  destruct (JS.get k (sessions (dbData w))); simpl; auto.
  now apply get_set_other.
Qed.

Lemma portfolioItems_modify k f w :
  portfolioItems (dbData (modify_session k f w)) = portfolioItems (dbData w).
Proof.
  unfold modify_session. now destruct (JS.get k (sessions (dbData w))).
Qed.

Lemma db_json_modify k f w : db_json (modify_session k f w) = db_json w.
Proof.
  unfold modify_session. now destruct (JS.get k (sessions (dbData w))).
Qed.

Lemma length_zero_nil {A} (l : list A) : (length l =? 0)%nat = true <-> l = [].
Proof. destruct l; simpl; split; auto; discriminate. Qed.


Lemma session_of_console_write lv ev w k :
  session_of (console_write lv ev w) k = session_of w k.
Proof. reflexivity. Qed.

Lemma session_of_saveData e w k : session_of (saveData e w) k = session_of w k.
Proof. unfold session_of. now rewrite dbData_saveData. Qed.

Lemma session_of_unlink_quietly r d p w k :
  session_of (unlink_quietly r d p w) k = session_of w k.
Proof. unfold session_of. now rewrite dbData_unlink_quietly. Qed.

Lemma session_of_unlink_all e ps i w k :
  session_of (unlink_all e i ps w) k = session_of w k.
Proof. unfold session_of. now rewrite dbData_unlink_all. Qed.

Lemma db_json_console_write lv ev w : db_json (console_write lv ev w) = db_json w.
Proof. reflexivity. Qed.

Lemma dbData_console_write lv ev w : dbData (console_write lv ev w) = dbData w.
Proof. reflexivity. Qed.

Create Rewrite HintDb world.
#[global] Hint Rewrite
  session_of_console_write session_of_saveData session_of_unlink_quietly
  session_of_unlink_all db_json_console_write dbData_console_write
  db_json_saveData dbData_saveData db_json_unlink_quietly dbData_unlink_quietly
  db_json_unlink_all dbData_unlink_all db_json_modify portfolioItems_modify
  : world.


(** ** finishSession *)



(** ** listPhotos *)





(** ** generateQRCode *)



(** ** submitSelection *)

Lemma array_includes_In ids s :
  JS.array_includes ids s = true <-> In (JS.JStr s) ids.
Proof.
  unfold JS.array_includes. rewrite existsb_exists. split.
  - intros (x & Hin & Hx). destruct x; try discriminate.
    apply String.eqb_eq in Hx. now subst.
  - intros Hin. exists (JS.JStr s). split; auto. apply String.eqb_refl.
Qed.

Lemma dbData_modify k f w s :
  session_of w k = Some s ->
  dbData (modify_session k f w) =
  {| sessions := JS.set k (f s) (sessions (dbData w));
     portfolioItems := portfolioItems (dbData w) |}.
Proof. unfold session_of, modify_session. now intros ->. Qed.

Lemma mark_selected_photos ids s :
  Forall2
    (fun p p' =>
       Photo.id p' = Photo.id p /\ Photo.url p' = Photo.url p /\
       Photo.filename p' = Photo.filename p /\
       (Photo.selected p' = true <-> In (JS.JStr (Photo.id p)) ids))
    (Session.photos s) (Session.photos (mark_selected ids s)).
Proof.
  unfold mark_selected. simpl.
  induction (Session.photos s) as [|p ps IH]; simpl; constructor; auto.
  simpl. repeat split; auto; apply array_includes_In.
Qed.

Lemma mark_selected_twice ids s :
  mark_selected ids (mark_selected ids s) = mark_selected ids s.
Proof.
  unfold mark_selected, Session.with_photos. simpl. f_equal.
  rewrite map_map. apply map_ext. intros p. reflexivity.
Qed.

(** What a successful [submitSelection] leaves in [dbData]. *)
Lemma submitSelection_dbData e sid ids w s :
  sid <> "" -> session_of w sid = Some s ->
  handle e (SubmitSelection (Some sid) (Some (JS.JArr ids))) w =
  (respond 200 (success "选片结果提交成功！" []),
   console_write log (SelectionSubmitted sid ids)
     (saveData e
        (set_sessions
           (JS.set sid (Session.with_status submitted (mark_selected ids s))
              (sessions (dbData w))) w))).
Proof.
  intros Hne Hs. simpl. unfold post_submitSelection.
  assert (Hp : present (Some sid) = Some sid) by (apply present_Some; auto).
  rewrite Hp. fold (session_of w sid). rewrite Hs.
  do 3 f_equal.
  unfold modify_session at 1.
  rewrite (dbData_modify sid (mark_selected ids) w s Hs). simpl.
  rewrite get_set_same, set_set.
  unfold modify_session. unfold session_of in Hs. rewrite Hs. reflexivity.
Qed.

(** C2. For a stored session and any array [ids], [POST /submitSelection]
    answers 200 and leaves the session with status [submitted], the same
    photos in the same order, each selected exactly when its id is an
    element of [ids], every other session as it was, and [saveData] called
    on the result.  When [selectedPhotoIds] is anything but an array the
    answer is 400 and nothing changes. *)
Theorem submitSelection_overwrites (e : Env) (sid : string) (s : Session.t)
    (w : World) (Hne : sid <> "") (Hs : session_of w sid = Some s) :
  (forall ids,
     let resp := fst (handle e (SubmitSelection (Some sid) (Some (JS.JArr ids))) w) in
     let w' := snd (handle e (SubmitSelection (Some sid) (Some (JS.JArr ids))) w) in
     http_status resp = 200 /\
     (exists s',
        session_of w' sid = Some s' /\
        Session.status s' = submitted /\
        Session.customerName s' = Session.customerName s /\
        Forall2
          (fun p p' =>
             Photo.id p' = Photo.id p /\ Photo.url p' = Photo.url p /\
             Photo.filename p' = Photo.filename p /\
             (Photo.selected p' = true <-> In (JS.JStr (Photo.id p)) ids))
          (Session.photos s) (Session.photos s')) /\
     (forall k, k <> sid -> session_of w' k = session_of w k) /\
     db_json w' = (if fs_writeFile e then Some (dbData w') else db_json w)) /\
  (forall v,
     (forall ids, v <> Some (JS.JArr ids)) ->
     http_status (fst (handle e (SubmitSelection (Some sid) v) w)) = 400 /\
     snd (handle e (SubmitSelection (Some sid) v) w) = w).
Proof.
  split.
  - intros ids. rewrite (submitSelection_dbData e sid ids w s Hne Hs). simpl.
    split; [reflexivity|]. split; [|split].
    + exists (Session.with_status submitted (mark_selected ids s)).
      autorewrite with world. unfold session_of. simpl.
      rewrite get_set_same. repeat split; auto.
      apply (mark_selected_photos ids s).
    + intros k Hk. autorewrite with world. unfold session_of. simpl.
      now apply get_set_other.
    + now autorewrite with world.
  - intros v Hv. simpl. unfold post_submitSelection.
    assert (Hp : present (Some sid) = Some sid) by (apply present_Some; auto).
    rewrite Hp. fold (session_of w sid). rewrite Hs.
    destruct v as [[]|]; auto. now destruct (Hv l).
Qed.


Lemma submitSelection_overwrites_witness :
  "session-1" <> "" /\
  session_of (Example.world ready) "session-1" = Some (Example.session1 ready) /\
  exists s',
    session_of
      (snd (handle Example.env
              (SubmitSelection (Some "session-1") (Some (JS.JArr [])))
              (Example.world ready))) "session-1" = Some s' /\
    Session.status s' = submitted /\
    Session.customerName s' = "Ann" /\
    Forall2
      (fun p p' =>
         Photo.id p' = Photo.id p /\ Photo.url p' = Photo.url p /\
         Photo.filename p' = Photo.filename p /\
         (Photo.selected p' = true <-> In (JS.JStr (Photo.id p)) []))
      [Example.photo1] (Session.photos s').
Proof.
  assert (Hne : "session-1" <> "") by discriminate.
  split; [exact Hne|]. split; [reflexivity|].
  destruct (submitSelection_overwrites Example.env "session-1"
              (Example.session1 ready) (Example.world ready) Hne eq_refl)
    as (Hok & _).
  destruct (Hok []) as (_ & Hs & _). exact Hs.
Defined.

(** C3. Submitting the same array twice in a row: both calls answer 200,
    the second leaves [dbData] exactly as the first left it, and after each
    the session is [submitted] with every photo selected exactly when its
    id is in the array. *)
Theorem submitSelection_idempotent (e1 e2 : Env) (sid : string)
    (ids : list JS.JSON) (w : World)
    (Hne : sid <> "") (Hs : session_of w sid <> None) :
  let r := SubmitSelection (Some sid) (Some (JS.JArr ids)) in
  let w1 := snd (handle e1 r w) in
  let w2 := snd (handle e2 r w1) in
  http_status (fst (handle e1 r w)) = 200 /\
  http_status (fst (handle e2 r w1)) = 200 /\
  dbData w2 = dbData w1 /\
  exists s1,
    session_of w1 sid = Some s1 /\ session_of w2 sid = Some s1 /\
    Session.status s1 = submitted /\
    forall p, In p (Session.photos s1) ->
              (Photo.selected p = true <-> In (JS.JStr (Photo.id p)) ids).
Proof.
  intros r w1 w2.
  destruct (session_of w sid) as [s|] eqn:Hw; [clear Hs | congruence].
  pose (s1 := Session.with_status submitted (mark_selected ids s)).
  assert (H1 : handle e1 r w = _) by apply (submitSelection_dbData e1 sid ids w s Hne Hw).
  assert (Hs1 : session_of w1 sid = Some s1).
  { unfold w1. rewrite H1. simpl. autorewrite with world.
    unfold session_of. simpl. apply get_set_same. }
  assert (H2 : handle e2 r w1 = _)
    by apply (submitSelection_dbData e2 sid ids w1 s1 Hne Hs1).
  assert (Hd1 : dbData w1 =
                {| sessions := JS.set sid s1 (sessions (dbData w));
                   portfolioItems := portfolioItems (dbData w) |}).
  { unfold w1. rewrite H1. simpl. now autorewrite with world. }
  assert (Hfix : Session.with_status submitted (mark_selected ids s1) = s1).
  { unfold s1, mark_selected, Session.with_photos, Session.with_status. simpl.
    f_equal. rewrite map_map. now apply map_ext. }
  assert (Hdb : dbData w2 = dbData w1).
  { unfold w2. rewrite H2. simpl. autorewrite with world. simpl.
    rewrite Hfix, Hd1. simpl. now rewrite set_set. }
  rewrite H1, H2. simpl. split; [reflexivity|]. split; [reflexivity|].
  split; [exact Hdb|].
  exists s1. split; [exact Hs1|]. split; [|split; [reflexivity|]].
  - unfold session_of. rewrite Hdb. exact Hs1.
  - intros p Hp. unfold s1, mark_selected in Hp. simpl in Hp.
    apply in_map_iff in Hp as (q & <- & _). simpl. apply array_includes_In.
Qed.

Lemma submitSelection_idempotent_witness :
  "session-1" <> "" /\
  session_of (Example.world ready) "session-1" <> None /\
  dbData
    (snd (handle Example.env_eperm
            (SubmitSelection (Some "session-1")
               (Some (JS.JArr [JS.JStr "photo-1"])))
            (snd (handle Example.env
                    (SubmitSelection (Some "session-1")
                       (Some (JS.JArr [JS.JStr "photo-1"])))
                    (Example.world ready))))) =
  dbData
    (snd (handle Example.env
            (SubmitSelection (Some "session-1")
               (Some (JS.JArr [JS.JStr "photo-1"])))
            (Example.world ready))).
Proof.
  assert (Hne : "session-1" <> "") by discriminate.
  assert (Hs : session_of (Example.world ready) "session-1" <> None)
    by discriminate.
  split; [exact Hne|]. split; [exact Hs|].
  apply (submitSelection_idempotent Example.env Example.env_eperm "session-1"
           [JS.JStr "photo-1"] (Example.world ready) Hne Hs).
Defined.

(** ** upload *)

Lemma session_of_createNewSession_same e sid name w :
  session_of (createNewSession e sid name w) sid =
  Some {| Session.customerName := name; Session.photos := [];
          Session.status := draft; Session.createdAt := Date_now e 0 |}.
Proof. unfold session_of, createNewSession. simpl. apply get_set_same. Qed.

Lemma session_of_createNewSession_other e sid name w k :
  k <> sid -> session_of (createNewSession e sid name w) k = session_of w k.
Proof.
  intros Hne. unfold session_of, createNewSession. simpl.
  now apply get_set_other.
Qed.



(** ** Deletions *)

Lemma findIndex_Some {A} (f : A -> bool) l i x :
  JS.findIndex f l = Some (i, x) ->
  exists l1 l2,
    l = (l1 ++ x :: l2)%list /\ length l1 = i /\ f x = true /\
    Forall (fun y => f y = false) l1 /\ JS.splice1 i l = (l1 ++ l2)%list.
Proof.
  revert i. induction l as [|a l IH]; intros i; simpl; [discriminate|].
  destruct (f a) eqn:Fa.
  - intros [= <- <-]. exists [], l. repeat split; auto.
  - destruct (JS.findIndex f l) as [[j y]|] eqn:Hj; [|discriminate].
    intros [= <- <-].
    destruct (IH j eq_refl) as (l1 & l2 & -> & Hlen & Fx & Hl1 & Hsp).
    exists (a :: l1), l2. simpl.
    split; [reflexivity|]. split; [now rewrite Hlen|]. split; [exact Fx|].
    split; [now constructor|].
    unfold JS.splice1 in *.
    change (a :: firstn j (l1 ++ y :: l2) ++ skipn (S j) (l1 ++ y :: l2)
            = a :: l1 ++ l2)%list.
    now f_equal.
Qed.

Lemma findIndex_None {A} (f : A -> bool) l :
  JS.findIndex f l = None <-> Forall (fun y => f y = false) l.
Proof.
  induction l as [|a l IH]; simpl.
  - split; auto.
  - destruct (f a) eqn:Fa.
    + split; [discriminate|]. intros H. inversion H; congruence.
    + destruct (JS.findIndex f l) as [[j y]|].
      * split; [discriminate|]. intros H. inversion H; subst.
        apply IH in H3. discriminate.
      * split; auto. intros _. constructor; auto. now apply IH.
Qed.

Lemma dbData_set_sessions ss w :
  dbData (set_sessions ss w) =
  {| sessions := ss; portfolioItems := portfolioItems (dbData w) |}.
Proof. reflexivity. Qed.

Lemma db_json_set_sessions ss w : db_json (set_sessions ss w) = db_json w.
Proof. reflexivity. Qed.

Lemma dbData_set_portfolioItems items w :
  dbData (set_portfolioItems items w) =
  {| sessions := sessions (dbData w); portfolioItems := items |}.
Proof. reflexivity. Qed.

Lemma db_json_set_portfolioItems items w :
  db_json (set_portfolioItems items w) = db_json w.
Proof. reflexivity. Qed.

#[global] Hint Rewrite
  dbData_set_sessions db_json_set_sessions dbData_set_portfolioItems
  db_json_set_portfolioItems : world.

(** C10. Whatever [fs.unlink] answers, the three deletion routes give the
    same response, the same [dbData] and the same [db.json]; and whenever
    the record exists the response is the 200 success with exactly [code] 0
    and the route's message, the record is gone (the first photo with the
    id, the photos before and after it staying in order, and the session
    with it when that was its last photo; the session; the first portfolio
    item with the id) and [saveData] is called on the result. *)
Theorem deletion_ignores_unlink_outcome (e : Env)
    (u : nat -> string -> UnlinkResult) (w : World) :
  (forall r, is_deletion r ->
     fst (handle (with_unlink u e) r w) = fst (handle e r w) /\
     dbData (snd (handle (with_unlink u e) r w)) = dbData (snd (handle e r w)) /\
     db_json (snd (handle (with_unlink u e) r w)) = db_json (snd (handle e r w))) /\
  (forall sid pid s p,
     session_of w sid = Some s ->
     In p (Session.photos s) -> Photo.id p = pid ->
     let resp := fst (handle e (DeletePhoto sid pid) w) in
     let w' := snd (handle e (DeletePhoto sid pid) w) in
     http_status resp = 200 /\
     body resp =
       JS.JObj [("code", JS.JNum 0); ("message", JS.JStr "照片删除成功")] /\
     (exists l1 q l2,
        Session.photos s = (l1 ++ q :: l2)%list /\ Photo.id q = pid /\
        (forall x, In x l1 -> Photo.id x <> pid) /\
        session_of w' sid =
          match (l1 ++ l2)%list with
          | [] => None
          | rest =>
              Some {| Session.customerName := Session.customerName s;
                      Session.photos := rest;
                      Session.status := Session.status s;
                      Session.createdAt := Session.createdAt s |}
          end) /\
     db_json w' = (if fs_writeFile e then Some (dbData w') else db_json w)) /\
  (forall sid s,
     session_of w sid = Some s ->
     let resp := fst (handle e (DeleteSession sid) w) in
     let w' := snd (handle e (DeleteSession sid) w) in
     http_status resp = 200 /\
     body resp =
       JS.JObj [("code", JS.JNum 0);
                ("message", JS.JStr "会话及其所有照片删除成功")] /\
     session_of w' sid = None /\
     db_json w' = (if fs_writeFile e then Some (dbData w') else db_json w)) /\
  (forall id it,
     In it (portfolioItems (dbData w)) -> PortfolioItem.id it = id ->
     let resp := fst (handle e (DeletePortfolio id) w) in
     let w' := snd (handle e (DeletePortfolio id) w) in
     http_status resp = 200 /\
     body resp =
       JS.JObj [("code", JS.JNum 0); ("message", JS.JStr "作品删除成功")] /\
     (exists l1 x l2,
        portfolioItems (dbData w) = (l1 ++ x :: l2)%list /\
        PortfolioItem.id x = id /\
        (forall y, In y l1 -> PortfolioItem.id y <> id) /\
        portfolioItems (dbData w') = (l1 ++ l2)%list) /\
     db_json w' = (if fs_writeFile e then Some (dbData w') else db_json w)).
Proof.
  split; [|split; [|split]].
  - intros r Hr. destruct r; try contradiction; simpl.
    + unfold delete_photo.
      destruct (JS.get sessionId (sessions (dbData w))) as [s|]; [|auto].
      destruct (JS.findIndex _ (Session.photos s)) as [[i p]|]; [|auto].
      simpl. autorewrite with world. repeat split; reflexivity.
    + unfold delete_session.
      destruct (JS.get sessionId (sessions (dbData w))) as [s|]; [|auto].
      simpl. autorewrite with world. repeat split; reflexivity.
    + unfold delete_portfolio.
      destruct (JS.findIndex _ (portfolioItems (dbData w))) as [[i it]|]; [|auto].
      simpl. autorewrite with world. repeat split; reflexivity.
  - intros sid pid s p Hs Hp Hid. simpl. unfold delete_photo.
    fold (session_of w sid). rewrite Hs.
    destruct (JS.findIndex _ (Session.photos s)) as [[i q]|] eqn:Hi.
    + apply findIndex_Some in Hi as (l1 & l2 & Hl & Hlen & Hq & Hl1 & Hsp).
      apply String.eqb_eq in Hq. simpl.
      split; [reflexivity|]. split; [reflexivity|]. split.
      * exists l1, q, l2. split; [exact Hl|]. split; [exact Hq|]. split.
        -- intros x Hx. rewrite Forall_forall in Hl1.
           apply Hl1 in Hx. now apply String.eqb_neq in Hx.
        -- rewrite Hsp. autorewrite with world.
           destruct (l1 ++ l2)%list as [|r rest] eqn:Hrest; simpl;
             autorewrite with world.
           ++ unfold session_of. simpl. apply get_delete_same.
           ++ erewrite session_of_modify_same by exact Hs. reflexivity.
      * destruct (length (JS.splice1 i (Session.photos s)) =? 0)%nat;
          now autorewrite with world.
    + apply findIndex_None in Hi. rewrite Forall_forall in Hi.
      apply Hi in Hp. apply String.eqb_neq in Hp. contradiction.
  - intros sid s Hs. simpl. unfold delete_session.
    fold (session_of w sid). rewrite Hs. simpl.
    split; [reflexivity|]. split; [reflexivity|].
    autorewrite with world. split; [|reflexivity].
    unfold session_of. simpl. apply get_delete_same.
  - intros id it Hit Hid. simpl. unfold delete_portfolio.
    destruct (JS.findIndex _ (portfolioItems (dbData w))) as [[i x]|] eqn:Hi.
    + apply findIndex_Some in Hi as (l1 & l2 & Hl & Hlen & Hx & Hl1 & Hsp).
      apply String.eqb_eq in Hx. simpl.
      split; [reflexivity|]. split; [reflexivity|]. split.
      * exists l1, x, l2. split; [exact Hl|]. split; [exact Hx|]. split.
        -- intros y Hy. rewrite Forall_forall in Hl1.
           apply Hl1 in Hy. now apply String.eqb_neq in Hy.
        -- autorewrite with world. simpl. exact Hsp.
      * now autorewrite with world.
    + apply findIndex_None in Hi. rewrite Forall_forall in Hi.
      apply Hi in Hit. apply String.eqb_neq in Hit. contradiction.
Qed.

Lemma deletion_ignores_unlink_outcome_witness :
  session_of (Example.world ready) "session-1" = Some (Example.session1 ready) /\
  (http_status
     (fst (handle Example.env_eperm (DeletePhoto "session-1" "photo-1")
             (Example.world ready))) = 200 /\
   body
     (fst (handle Example.env_eperm (DeletePhoto "session-1" "photo-1")
             (Example.world ready)))
     = JS.JObj [("code", JS.JNum 0); ("message", JS.JStr "照片删除成功")]) /\
  (body
     (fst (handle Example.env_eperm (DeleteSession "session-1")
             (Example.world ready)))
     = JS.JObj [("code", JS.JNum 0);
                ("message", JS.JStr "会话及其所有照片删除成功")] /\
   session_of
     (snd (handle Example.env_eperm (DeleteSession "session-1")
             (Example.world ready))) "session-1" = None).
Proof.
  destruct (deletion_ignores_unlink_outcome Example.env_eperm
              (fun _ _ => Unlinked) (Example.world ready))
    as (_ & Hphoto & Hsession & _).
  split; [reflexivity|]. split.
  - destruct (Hphoto "session-1" "photo-1" (Example.session1 ready)
                Example.photo1 eq_refl (or_introl eq_refl) eq_refl)
      as (Hst & Hbody & _).
    split; [exact Hst | exact Hbody].
  - destruct (Hsession "session-1" (Example.session1 ready) eq_refl)
      as (_ & Hbody & Hgone & _).
    split; [exact Hbody | exact Hgone].
Defined.

(** ** How requests change sessions *)

Lemma session_of_set_sessions_delete_same k w :
  session_of (set_sessions (JS.delete k (sessions (dbData w))) w) k = None.
Proof. unfold session_of. simpl. apply get_delete_same. Qed.

Lemma session_of_set_sessions_delete_other k k' w w0 :
  k' <> k ->
  session_of (set_sessions (JS.delete k (sessions (dbData w))) w0) k'
  = session_of w k'.
Proof. intros. unfold session_of. simpl. now apply get_delete_other. Qed.

Lemma session_of_set_portfolioItems items w k :
  session_of (set_portfolioItems items w) k = session_of w k.
Proof. reflexivity. Qed.

#[global] Hint Rewrite session_of_set_portfolioItems : world.

(** Every request changes every stored session in one of the ways of
    [session_change]. *)
Lemma handle_session_change e r w k :
  session_change e r k (session_of w k) (session_of (snd (handle e r w)) k).
Proof.
  destruct r; simpl.
  - (* upload *)
    unfold post_upload. destruct file as [filename|]; [|constructor].
    destruct (present sessionId) as [sid|] eqn:Hp.
    + fold (session_of w sid).
      destruct (session_of w sid) as [s|] eqn:Hs; simpl; autorewrite with world.
      * destruct (String.eqb_spec k sid) as [->|Hne].
        -- rewrite Hs.
           destruct (negb _ && _); simpl.
           ++ erewrite session_of_modify_same
                by (apply session_of_modify_same; exact Hs).
              eapply change_photo_added; reflexivity.
           ++ erewrite session_of_modify_same by exact Hs.
              eapply change_photo_added; reflexivity.
        -- destruct (negb _ && _); simpl;
             rewrite ?session_of_modify_other by exact Hne; constructor.
      * destruct (String.eqb_spec k sid) as [->|Hne].
        -- erewrite session_of_modify_same
             by apply session_of_createNewSession_same.
           rewrite Hs. eapply change_created; eauto.
        -- rewrite session_of_modify_other, session_of_createNewSession_other
             by exact Hne.
           constructor.
    + simpl. autorewrite with world.
      destruct (String.eqb_spec k (uuidv4 e 1)) as [->|Hne].
      * erewrite session_of_modify_same
          by apply session_of_createNewSession_same.
        eapply change_created; eauto.
      * rewrite session_of_modify_other, session_of_createNewSession_other
          by exact Hne.
        constructor.
  - (* delete photo *)
    unfold delete_photo. fold (session_of w sessionId).
    destruct (session_of w sessionId) as [s|] eqn:Hs; [|constructor].
    destruct (JS.findIndex _ (Session.photos s)) as [[i p]|]; [|constructor].
    simpl. autorewrite with world.
    destruct (JS.splice1 i (Session.photos s)) as [|q rest] eqn:Hsp; simpl;
      autorewrite with world.
    + destruct (String.eqb_spec k sessionId) as [->|Hne].
      * rewrite session_of_set_sessions_delete_same, Hs.
        constructor. eauto.
      * rewrite session_of_set_sessions_delete_other,
          session_of_modify_other by exact Hne.
        constructor.
    + destruct (String.eqb_spec k sessionId) as [->|Hne].
      * erewrite session_of_modify_same by exact Hs. rewrite Hs, <- Hsp.
        eapply change_photo_removed; [reflexivity | congruence].
      * rewrite session_of_modify_other by exact Hne. constructor.
  - (* delete session *)
    unfold delete_session. fold (session_of w sessionId).
    destruct (session_of w sessionId) as [s|] eqn:Hs; [|constructor].
    simpl. autorewrite with world.
    destruct (String.eqb_spec k sessionId) as [->|Hne].
    + unfold session_of at 2. simpl. autorewrite with world.
      rewrite get_delete_same, Hs. constructor. auto.
    + unfold session_of at 2. simpl. autorewrite with world.
      rewrite get_delete_other by exact Hne. constructor.
  - (* finish *)
    unfold post_finishSession.
    destruct (present sessionId) as [sid|] eqn:Hp; [|constructor].
    apply present_Some in Hp as [-> Hne0].
    fold (session_of w sid).
    destruct (session_of w sid) as [s|] eqn:Hs; [|constructor].
    destruct (length (Session.photos s) =? 0)%nat eqn:Hlen; [constructor|].
    simpl. autorewrite with world.
    destruct (String.eqb_spec k sid) as [->|Hne].
    + erewrite session_of_modify_same by exact Hs. rewrite Hs.
      constructor; [reflexivity|].
      intros H. apply length_zero_nil in H. congruence.
    + rewrite session_of_modify_other by exact Hne. constructor.
  - (* list sessions *) constructor.
  - (* list photos *)
    unfold get_photos.
    destruct (present sessionId) as [sid|]; [|constructor].
    destruct (JS.get sid (sessions (dbData w))) as [s|]; [|constructor].
    destruct (is_draft _ && _); constructor.
  - (* submit *)
    unfold post_submitSelection.
    destruct (present sessionId) as [sid|] eqn:Hp; [|constructor].
    apply present_Some in Hp as [-> Hne0].
    fold (session_of w sid).
    destruct (session_of w sid) as [s|] eqn:Hs; [|constructor].
    destruct selectedPhotoIds as [[]|]; try constructor.
    pose proof (submitSelection_dbData e sid l w s Hne0 Hs) as H.
    simpl in H. unfold post_submitSelection in H.
    assert (Hp : present (Some sid) = Some sid) by (apply present_Some; auto).
    rewrite Hp in H. fold (session_of w sid) in H. rewrite Hs in H.
    rewrite H. simpl. autorewrite with world. unfold session_of at 2. simpl.
    destruct (String.eqb_spec k sid) as [->|Hne].
    + rewrite get_set_same, Hs. now constructor.
    + rewrite get_set_other by exact Hne. constructor.
  - (* QR code *)
    unfold post_generateQRCode.
    destruct (present sessionId), (present page); try constructor.
    destruct (match JS.get s _ with Some _ => _ | None => _ end); [constructor|].
    destruct (qrcode_toFile e); constructor.
  - (* portfolio upload *)
    unfold post_portfolio_upload.
    destruct (length files =? 0)%nat; simpl; autorewrite with world; constructor.
  - (* list portfolio *)
    unfold get_portfolio.
    destruct (present category) as [c|]; [destruct (negb _)|]; constructor.
  - (* delete portfolio item *)
    unfold delete_portfolio.
    destruct (JS.findIndex _ _) as [[i it]|]; simpl; autorewrite with world;
      constructor.
Qed.

Lemma In_firstn_In {A} (x : A) n l : In x (firstn n l) -> In x l.
Proof.
  intros H. rewrite <- (firstn_skipn n l). apply in_or_app. now left.
Qed.

Lemma In_skipn_In {A} (x : A) n l : In x (skipn n l) -> In x l.
Proof.
  intros H. rewrite <- (firstn_skipn n l). apply in_or_app. now right.
Qed.

Lemma In_slice {A} (x : A) l a b : In x (JS.slice l a b) -> In x l.
Proof.
  unfold JS.slice. intros H.
  apply In_firstn_In in H. now apply In_skipn_In in H.
Qed.

Lemma In_summaries x ss :
  In x (summaries ss) ->
  exists s, JS.get (Summary.id x) ss = Some s /\
            x = {| Summary.id := Summary.id x;
                   Summary.customerName := Session.customerName s;
                   Summary.status := Session.status s;
                   Summary.photoCount := length (Session.photos s);
                   Summary.createdAt := Session.createdAt s |}.
Proof.
  unfold summaries. rewrite in_flat_map. intros (k & _ & Hx).
  destruct (JS.get k ss) as [s|] eqn:Hk; [|contradiction].
  destruct Hx as [<-|[]]. simpl. eauto.
Qed.

Lemma In_filter_status st x l : In x (filter_status st l) -> In x l.
Proof.
  unfold filter_status. destruct (present st) as [v|]; auto.
  destruct (negb _); auto. intros H. now apply filter_In in H.
Qed.

Lemma In_filter_search q x l : In x (filter_search q l) -> In x l.
Proof.
  unfold filter_search. destruct (present q) as [v|]; auto.
  intros H. now apply filter_In in H.
Qed.

Lemma In_filteredSessions st q db x :
  In x (filteredSessions st q db) -> In x (summaries (sessions db)).
Proof.
  unfold filteredSessions. intros H. apply sort_In in H.
  now apply In_filter_search, In_filter_status in H.
Qed.

Lemma In_list_sessions st q pg lm db x :
  In x (Page.sessions (list_sessions st q pg lm db)) ->
  In x (summaries (sessions db)).
Proof.
  unfold list_sessions. simpl. intros H.
  now apply In_slice, In_filteredSessions in H.
Qed.


Lemma no_empty_session_step e r w :
  no_empty_session w -> no_empty_session (snd (handle e r w)).
Proof.
  intros H k s' Hs'.
  pose proof (handle_session_change e r w k) as Hc. rewrite Hs' in Hc.
  inversion Hc; subst;
    try match goal with
        | Hw : Some _ = session_of w k |- _ =>
            symmetry in Hw; pose proof (H _ _ Hw)
        end.
  - apply (H k). congruence.
  - destruct (Session.photos s'); [discriminate | congruence].
  - match goal with Hp : Session.photos s' = _ |- _ => rewrite Hp end.
    intros Habs. now apply app_eq_nil in Habs as [_ ?].
  - assumption.
  - assumption.
  - simpl. intros Habs. now apply map_eq_nil in Habs.
Qed.

Lemma no_empty_session_reachable w0 w :
  no_empty_session w0 -> reachable w0 w -> no_empty_session w.
Proof.
  intros H0. induction 1; auto using no_empty_session_step.
Qed.

(** C4. In every state the server reaches from one in which each stored
    session has a photo (the empty store it starts with, for one), each
    stored session has a photo and every entry of every session listing
    counts at least one photo; and deleting the only photo of a session
    removes the session, after which no listing has its id. *)
Theorem no_empty_session_retained (w0 w : World)
    (H0 : no_empty_session w0) (Hr : reachable w0 w) :
  no_empty_session w /\
  (forall status search page limit x,
     In x (Page.sessions (list_sessions status search page limit (dbData w))) ->
     (1 <= Summary.photoCount x)%nat) /\
  (forall e sid s p,
     session_of w sid = Some s -> Session.photos s = [p] ->
     let w' := snd (handle e (DeletePhoto sid (Photo.id p)) w) in
     session_of w' sid = None /\
     forall status search page limit,
       ~ In sid
           (map Summary.id
              (Page.sessions
                 (list_sessions status search page limit (dbData w'))))).
Proof.
  assert (Hw : no_empty_session w) by eauto using no_empty_session_reachable.
  split; [exact Hw|]. split.
  - intros st q pg lm x Hx.
    apply In_list_sessions, In_summaries in Hx as (s & Hs & ->). simpl.
    apply Hw in Hs. destruct (Session.photos s); [congruence | simpl; lia].
  - intros e sid s p Hs Hp w'.
    assert (Hgone : session_of w' sid = None).
    { unfold w'. simpl. unfold delete_photo.
      fold (session_of w sid). rewrite Hs, Hp. simpl.
      rewrite String.eqb_refl. simpl. autorewrite with world.
      unfold session_of. simpl. apply get_delete_same. }
    split; [exact Hgone|].
    intros st q pg lm Hin. apply in_map_iff in Hin as (x & <- & Hx).
    apply In_list_sessions, In_summaries in Hx as (s' & Hs' & _).
    unfold session_of in Hgone. congruence.
Qed.

Lemma no_empty_session_retained_witness :
  no_empty_session fresh_world /\
  reachable fresh_world Example.after_upload /\
  session_of
    (snd (handle Example.env (DeletePhoto "session-2" "photo-2")
            Example.after_upload)) "session-2" = None.
Proof.
  assert (H0 : no_empty_session fresh_world)
    by (intros sid s H; discriminate H).
  assert (Hr : reachable fresh_world Example.after_upload)
    by apply reach_step, reach_start.
  split; [exact H0|]. split; [exact Hr|].
  destruct (no_empty_session_retained _ _ H0 Hr) as (_ & _ & Hdel).
  destruct (Hdel Example.env "session-2" Example.session2 Example.photo2
              eq_refl eq_refl) as [Hgone _].
  exact Hgone.
Defined.

(** ** The status of a submitted session *)

(** C1 (amended). A submitted session, after any one request whose
    generated session id is not its own: it is gone only through one of the
    two deletion routes; if it is still stored it is still [submitted], or
    it is [ready] and the request was [finishSession] on it; it is never
    back to [draft].  [submitSelection] on it leaves it [submitted];
    [finishSession] on it, when it has a photo, makes it [ready]. *)
Theorem submitted_session_after_request (e : Env) (r : Request) (w : World)
    (sid : string) (s : Session.t)
    (Hs : session_of w sid = Some s)
    (Hsub : Session.status s = submitted)
    (Hfresh : uuidv4 e 1 <> sid) :
  let w' := snd (handle e r w) in
  match session_of w' sid with
  | None => r = DeleteSession sid \/ exists pid, r = DeletePhoto sid pid
  | Some s' =>
      Session.status s' = submitted
      \/ (Session.status s' = ready /\ r = FinishSession (Some sid)
          /\ Session.photos s <> [])
  end /\
  (forall v, r = SubmitSelection (Some sid) v ->
     exists s', session_of w' sid = Some s' /\ Session.status s' = submitted) /\
  (r = FinishSession (Some sid) -> sid <> "" -> Session.photos s <> [] ->
     exists s', session_of w' sid = Some s' /\ Session.status s' = ready).
Proof.
  intros w'.
  assert (Hmain :
    match session_of w' sid with
    | None => r = DeleteSession sid \/ exists pid, r = DeletePhoto sid pid
    | Some s' =>
        Session.status s' = submitted
        \/ (Session.status s' = ready /\ r = FinishSession (Some sid)
            /\ Session.photos s <> [])
    end).
  { pose proof (handle_session_change e r w sid) as Hc. fold w' in Hc.
    rewrite Hs in Hc.
    inversion Hc; subst; auto;
      try match goal with
          | H : _ /\ _ \/ _ /\ _ |- _ =>
              destruct H as [[_ ?]|[_ ?]]; congruence
          end;
      try (left; congruence). }
  split; [exact Hmain|]. split.
  - intros v ->. destruct (session_of w' sid) as [s'|].
    + destruct Hmain as [H|(_ & H & _)]; [eauto | discriminate].
    + destruct Hmain as [H|[pid H]]; discriminate.
  - intros -> Hne Hph. unfold w'. simpl. unfold post_finishSession.
    assert (Hp : present (Some sid) = Some sid) by (apply present_Some; auto).
    rewrite Hp. fold (session_of w sid). rewrite Hs.
    destruct (length (Session.photos s) =? 0)%nat eqn:Hlen.
    + apply length_zero_nil in Hlen. contradiction.
    + simpl. autorewrite with world.
      erewrite session_of_modify_same by exact Hs. eauto.
Qed.

Lemma submitted_session_after_request_witness :
  session_of (Example.world submitted) "session-1"
    = Some (Example.session1 submitted) /\
  Session.status (Example.session1 submitted) = submitted /\
  uuidv4 Example.env 1 <> "session-1" /\
  exists s',
    session_of
      (snd (handle Example.env
              (SubmitSelection (Some "session-1") (Some (JS.JArr [])))
              (Example.world submitted))) "session-1" = Some s' /\
    Session.status s' = submitted.
Proof.
  assert (Hfresh : uuidv4 Example.env 1 <> "session-1") by discriminate.
  split; [reflexivity|]. split; [reflexivity|]. split; [exact Hfresh|].
  destruct (submitted_session_after_request Example.env
              (SubmitSelection (Some "session-1") (Some (JS.JArr [])))
              (Example.world submitted) "session-1"
              (Example.session1 submitted) eq_refl eq_refl Hfresh)
    as (_ & Hsubmit & _).
  exact (Hsubmit _ eq_refl).
Defined.

(** C1, as stated, fails: [finishSession] has no test on the status, and a
    submitted session with a photo goes back to [ready]. *)
Lemma finishSession_reopens_submitted :
  session_of (Example.world submitted) "session-1"
    = Some (Example.session1 submitted) /\
  http_status
    (fst (handle Example.env (FinishSession (Some "session-1"))
            (Example.world submitted))) = 200 /\
  session_of
    (snd (handle Example.env (FinishSession (Some "session-1"))
            (Example.world submitted))) "session-1"
    = Some (Example.session1 ready).
Proof. repeat split. Qed.

(** ** Listing sessions *)

Lemma startsWith_prefix p s : JS.startsWith p s = true <-> exists b, s = p ++ b.
Proof.
  revert s. induction p as [|a p IH]; intros s; simpl.
  - split; eauto.
  - destruct s as [|c s].
    + split; [discriminate | intros [b Hb]; discriminate].
    + rewrite andb_true_iff, IH. split.
      * intros [Hac [b ->]]. apply Ascii.eqb_eq in Hac. subst. eauto.
      * intros [b [= -> ->]]. split; [apply Ascii.eqb_refl | eauto].
Qed.




Lemma sort_filter {A} (cmp : A -> A -> Z) (f : A -> bool) l :
  (forall x y, f x = true -> f y = true -> cmp x y <= 0) ->
  filter f (JS.sort cmp l) = filter f l.
Proof.
  intros Hf. induction l as [|x l IH]; simpl; auto.
  rewrite sort_insert_filter by (intros; now apply Hf).
  simpl. now rewrite IH.
Qed.


(** A page cut out of [l] by two indices in order. *)
Lemma slice_page {A} (l : list A) a n :
  0 <= a -> 0 <= n ->
  JS.slice l (Some a) (Some (a + n))
  = firstn (Z.to_nat n) (skipn (Z.to_nat a) l).
Proof.
  intros Ha Hn. unfold JS.slice, JS.relative_index.
  destruct (Z.ltb_spec a 0); [lia|]. destruct (Z.ltb_spec (a + n) 0); [lia|].
  set (len := Z.of_nat (length l)).
  destruct (Z.le_gt_cases len a) as [Hout|Hin].
  - rewrite !skipn_all2 by lia. now rewrite !firstn_nil.
  - rewrite (Z.min_l a len) by lia.
    destruct (Z.le_gt_cases (a + n) len) as [Hfit|Hover].
    + rewrite Z.min_l by lia. f_equal. lia.
    + rewrite Z.min_r by lia.
      rewrite !firstn_all2; auto; rewrite length_skipn; lia.
Qed.

Lemma slice_NaN {A} (l : list A) : JS.slice l None None = [].
Proof. reflexivity. Qed.

Lemma keys_In {V} k (o : JS.Obj V) : In k (JS.keys o) <-> In k (map fst o).
Proof.
  unfold JS.keys. rewrite in_app_iff, sort_In, !filter_In.
  destruct (JS.is_array_index k); simpl; intuition discriminate.
Qed.

(** The listing starts from one summary for each key of the store, in the
    order of [Object.keys]. *)
Lemma summaries_ids ss : map Summary.id (summaries ss) = JS.keys ss.
Proof.
  unfold summaries.
  assert (H : forall k, In k (JS.keys ss) -> exists s, JS.get k ss = Some s).
  { intros k Hk. apply keys_In in Hk. now apply In_fst_get. }
  induction (JS.keys ss) as [|k ks IH]; simpl; auto.
  destruct (H k (or_introl eq_refl)) as [s ->]. simpl.
  f_equal. apply IH. intros k' Hk'. apply H. now right.
Qed.




(** A page below 1 is not empty either: its indices count from the end. *)
Example negative_page_counts_from_the_end :
  map Summary.id
    (Page.sessions
       (list_sessions None None (Some "-1") (Some "1") Example.two_sessions))
  = ["session-2"].
Proof. reflexivity. Qed.

(** An empty [status] filters nothing. *)
Example empty_status_is_no_filter :
  map Summary.id
    (Page.sessions
       (list_sessions (Some "") None None None Example.two_sessions))
  = ["session-2"; "session-1"].
Proof. reflexivity. Qed.

(** The second page of ten out of fifteen sessions has five entries. *)
Lemma second_page_of_fifteen (db : DB) :
  length (summaries (sessions db)) = 15%nat ->
  length (Page.sessions (list_sessions None None (Some "2") (Some "10") db))
  = 5%nat.
Proof.
  intros H15.
  pose proof (slice_page (filteredSessions None None db) 10 10
                ltac:(lia) ltac:(lia)) as Hcut.
  change (Page.sessions (list_sessions None None (Some "2") (Some "10") db))
    with (JS.slice (filteredSessions None None db) (Some 10) (Some (10 + 10))).
  rewrite Hcut, length_firstn, length_skipn.
  unfold filteredSessions. rewrite sort_length.
  change (filter_search None (filter_status None (summaries (sessions db))))
    with (summaries (sessions db)).
  rewrite H15. reflexivity.
Qed.

(** * Beyond the claims *)

(** ** Deleting a photo *)

(** X1. [DELETE /photo/:sessionId/:photoId] answers 404, changing nothing,
    exactly when no photo of a session stored under that id has the photo
    id.  Otherwise it answers 200 and removes the first photo with that id,
    the others staying in order, or the whole session when that was its
    only photo.  No other session and no portfolio item is touched.
    Stated for a session id that is not a name every object inherits:
    under such a name, when no session is stored, the handler throws at
    [photos.findIndex]. *)
Theorem delete_photo_outcome (e : Env) (sid pid : string) (w : World)
    (Hown : JS.inherited sid = false) :
  let resp := fst (handle e (DeletePhoto sid pid) w) in
  let w' := snd (handle e (DeletePhoto sid pid) w) in
  (http_status resp = 404 <->
     forall s p, session_of w sid = Some s -> In p (Session.photos s) ->
                 Photo.id p <> pid) /\
  (http_status resp = 404 -> w' = w) /\
  (forall s p,
     session_of w sid = Some s -> In p (Session.photos s) -> Photo.id p = pid ->
     http_status resp = 200 /\
     exists l1 q l2,
       Session.photos s = (l1 ++ q :: l2)%list /\ Photo.id q = pid /\
       (forall x, In x l1 -> Photo.id x <> pid) /\
       session_of w' sid =
         match (l1 ++ l2)%list with
         | [] => None
         | rest => Some (Session.with_photos rest s)
         end) /\
  (forall k, k <> sid -> session_of w' k = session_of w k) /\
  portfolioItems (dbData w') = portfolioItems (dbData w).
Proof.
  simpl. unfold delete_photo. fold (session_of w sid).
  destruct (session_of w sid) as [s|] eqn:Hs.
  - destruct (JS.findIndex _ (Session.photos s)) as [[i q]|] eqn:Hi.
    + apply findIndex_Some in Hi as (l1 & l2 & Hl & Hlen & Hq & Hl1 & Hsp).
      apply String.eqb_eq in Hq. simpl.
      split; [|split; [|split; [|split]]].
      * split; [discriminate|]. intros H. exfalso.
        apply (H s q eq_refl); auto. rewrite Hl. apply in_elt.
      * discriminate.
      * intros s0 p [= <-] _ _. split; [reflexivity|].
        exists l1, q, l2. split; [exact Hl|]. split; [exact Hq|]. split.
        -- intros x Hx. rewrite Forall_forall in Hl1.
           apply Hl1 in Hx. now apply String.eqb_neq in Hx.
        -- rewrite Hsp. autorewrite with world.
           destruct (l1 ++ l2)%list as [|r rest] eqn:Hrest; simpl;
             autorewrite with world.
           ++ unfold session_of. simpl. apply get_delete_same.
           ++ now apply session_of_modify_same.
      * intros k Hk. autorewrite with world.
        destruct (length (JS.splice1 i (Session.photos s)) =? 0)%nat;
          autorewrite with world.
        -- rewrite session_of_set_sessions_delete_other by exact Hk.
           now apply session_of_modify_other.
        -- now apply session_of_modify_other.
      * autorewrite with world.
        destruct (length (JS.splice1 i (Session.photos s)) =? 0)%nat;
          now autorewrite with world.
    + apply findIndex_None in Hi. rewrite Forall_forall in Hi. simpl.
      split; [|split; [|split; [|split]]]; auto.
      * split; auto. intros _ s0 p [= <-] Hp. apply Hi in Hp.
        now apply String.eqb_neq in Hp.
      * intros s0 p [= <-] Hp Hid. apply Hi in Hp.
        apply String.eqb_neq in Hp. contradiction.
  - simpl. split; [|split; [|split; [|split]]]; auto.
    + split; auto. intros _ s p H. discriminate.
    + intros s p H. discriminate.
Qed.

Lemma delete_photo_outcome_witness :
  JS.inherited "session-1" = false /\
  http_status
    (fst (handle Example.env (DeletePhoto "session-1" "photo-1")
            (Example.world ready))) = 200 /\
  session_of
    (snd (handle Example.env (DeletePhoto "session-1" "photo-1")
            (Example.world ready))) "session-2"
  = session_of (Example.world ready) "session-2".
Proof.
  split; [reflexivity|].
  destruct (delete_photo_outcome Example.env "session-1" "photo-1"
              (Example.world ready) eq_refl)
    as (_ & _ & Hok & Hframe & _).
  split.
  - apply (Hok (Example.session1 ready) Example.photo1);
      [reflexivity | left; reflexivity | reflexivity].
  - apply Hframe. discriminate.
Defined.

(** ** Deleting a session *)





(** ** Deleting a portfolio item *)


(** ** Generating the QR code *)

(** X4. [POST /generateQRCode] is usable when [sessionId] and [page] are
    given and not empty and the session is stored with at least one photo,
    whatever its status.  It answers 400 exactly when it is not usable, 200
    exactly when it is and [qrcode.toFile] succeeds, 500 exactly when it is
    and [qrcode.toFile] fails; the URL of a 200 is
    [BASE_URL/qrcodes/qrcode-<sessionId>.png].  It never changes [dbData]
    and never writes [db.json].  Stated for a [sessionId] that is not a
    name every object inherits: under such a name, when no session is
    stored, the handler throws at [photos.length]. *)
Theorem generateQRCode_outcome (e : Env) (sessionId page : option string)
    (w : World) (Hown : own_name sessionId) :
  let resp := fst (handle e (GenerateQRCode sessionId page) w) in
  let w' := snd (handle e (GenerateQRCode sessionId page) w) in
  let usable :=
    exists sid pg s,
      sessionId = Some sid /\ sid <> "" /\ page = Some pg /\ pg <> "" /\
      session_of w sid = Some s /\ Session.photos s <> [] in
  (http_status resp = 400 <-> ~ usable) /\
  (http_status resp = 200 <-> usable /\ qrcode_toFile e = true) /\
  (http_status resp = 500 <-> usable /\ qrcode_toFile e = false) /\
  (forall sid,
     sessionId = Some sid -> http_status resp = 200 ->
     body resp =
       JS.JObj
         [("code", JS.JNum 0);
          ("message", JS.JStr "success");
          ("qrCodeUrl",
           JS.JStr (BASE_URL ++ "/qrcodes/" ++ "qrcode-" ++ sid ++ ".png"))]) /\
  dbData w' = dbData w /\ db_json w' = db_json w.
Proof.
  simpl. unfold post_generateQRCode.
  destruct (present sessionId) as [sid|] eqn:Hp.
  - apply present_Some in Hp as [-> Hsid].
    destruct (present page) as [pg|] eqn:Hpg.
    + apply present_Some in Hpg as [-> Hpage].
      fold (session_of w sid).
      destruct (session_of w sid) as [s|] eqn:Hs.
      * destruct (length (Session.photos s) =? 0)%nat eqn:Hlen.
        -- apply length_zero_nil in Hlen. simpl.
           assert (Hno : ~ (exists sid0 pg0 s0,
                      Some sid = Some sid0 /\ sid0 <> "" /\ Some pg = Some pg0 /\
                      pg0 <> "" /\ session_of w sid0 = Some s0 /\
                      Session.photos s0 <> [])).
           { intros (sid0 & pg0 & s0 & [= <-] & _ & _ & _ & Hs0 & Hph).
             congruence. }
           repeat split; auto; try discriminate; try tauto.
        -- assert (Hph : Session.photos s <> []).
           { intros H. apply length_zero_nil in H. congruence. }
           assert (Hyes : exists sid0 pg0 s0,
                      Some sid = Some sid0 /\ sid0 <> "" /\ Some pg = Some pg0 /\
                      pg0 <> "" /\ session_of w sid0 = Some s0 /\
                      Session.photos s0 <> []).
           { exists sid, pg, s. auto 10. }
           destruct (qrcode_toFile e); simpl;
             repeat split; auto; try discriminate; try tauto;
             try (intros [_ ?]; discriminate).
           intros sid0 [= <-] _. reflexivity.
      * simpl.
        assert (Hno : ~ (exists sid0 pg0 s0,
                   Some sid = Some sid0 /\ sid0 <> "" /\ Some pg = Some pg0 /\
                   pg0 <> "" /\ session_of w sid0 = Some s0 /\
                   Session.photos s0 <> [])).
        { intros (sid0 & pg0 & s0 & [= <-] & _ & _ & _ & Hs0 & _). congruence. }
        repeat split; auto; try discriminate; try tauto.
    + apply present_None in Hpg. simpl.
      assert (Hno : ~ (exists sid0 pg0 s0,
                 Some sid = Some sid0 /\ sid0 <> "" /\ page = Some pg0 /\
                 pg0 <> "" /\ session_of w sid0 = Some s0 /\
                 Session.photos s0 <> [])).
      { intros (sid0 & pg0 & s0 & _ & _ & Hpg0 & Hne & _).
        destruct Hpg as [H|H]; rewrite H in Hpg0; [discriminate|].
        injection Hpg0 as <-. contradiction. }
      repeat split; auto; try discriminate; try tauto.
  - apply present_None in Hp. simpl.
    assert (Hno : ~ (exists sid0 pg0 s0,
               sessionId = Some sid0 /\ sid0 <> "" /\ page = Some pg0 /\
               pg0 <> "" /\ session_of w sid0 = Some s0 /\
               Session.photos s0 <> [])).
    { intros (sid0 & pg0 & s0 & Hsid0 & Hne & _).
      destruct Hp as [H|H]; rewrite H in Hsid0; [discriminate|].
      injection Hsid0 as <-. contradiction. }
    repeat split; auto; try discriminate; try tauto.
Qed.

Lemma generateQRCode_outcome_witness :
  own_name (Some "session-1") /\
  body
    (fst (handle Example.env
            (GenerateQRCode (Some "session-1") (Some "pages/select"))
            (Example.world ready)))
  = JS.JObj
      [("code", JS.JNum 0);
       ("message", JS.JStr "success");
       ("qrCodeUrl",
        JS.JStr "http://localhost:3000/qrcodes/qrcode-session-1.png")].
Proof.
  assert (Hown : own_name (Some "session-1"))
    by (intros sid [= <-]; reflexivity).
  split; [exact Hown|].
  destruct (generateQRCode_outcome Example.env (Some "session-1")
              (Some "pages/select") (Example.world ready) Hown)
    as (_ & _ & _ & Hbody & _).
  apply (Hbody "session-1"); reflexivity.
Defined.

(** ** The portfolio *)

Lemma new_items_fields e c files : forall i,
  Forall2
    (fun f it =>
       PortfolioItem.filename it = f /\
       PortfolioItem.url it = BASE_URL ++ "/portfolio_uploads/" ++ f /\
       PortfolioItem.category it = JS.or_default c "未分类" /\
       PortfolioItem.title it = "作品" /\
       PortfolioItem.description it = "")
    files (new_items e i c files).
Proof.
  induction files as [|f files IH]; intros i; simpl; constructor; simpl; auto.
Qed.

Lemma new_items_nth e c files : forall i n it,
  nth_error (new_items e i c files) n = Some it ->
  PortfolioItem.id it = uuidv4 e (i + n) /\
  PortfolioItem.createdAt it = Date_now e (i + n).
Proof.
  induction files as [|f files IH]; intros i n it; simpl.
  - destruct n; discriminate.
  - destruct n as [|n]; simpl.
    + intros [= <-]. simpl. now rewrite Nat.add_0_r.
    + intros H. apply IH in H. now rewrite Nat.add_succ_r.
Qed.

(** X5. [POST /portfolio/upload] answers 400, changing nothing, exactly
    when it got no file.  Otherwise it answers 200 and appends one item for
    each file, in order, after the stored ones: the item has that file's
    name and URL, the category given (or the "uncategorised" text), the
    default title, an empty description, and the n-th identifier and
    instant of the request; the answer lists the id and URL of each, and
    [saveData] is called.  The sessions are not touched. *)
Theorem portfolio_upload_outcome (e : Env) (files : list string)
    (category : option string) (w : World) :
  let resp := fst (handle e (PortfolioUpload files category) w) in
  let w' := snd (handle e (PortfolioUpload files category) w) in
  (http_status resp = 400 <-> files = []) /\
  (http_status resp = 400 -> w' = w) /\
  (files <> [] ->
   http_status resp = 200 /\
   exists items,
     portfolioItems (dbData w') = (portfolioItems (dbData w) ++ items)%list /\
     Forall2
       (fun f it =>
          PortfolioItem.filename it = f /\
          PortfolioItem.url it = BASE_URL ++ "/portfolio_uploads/" ++ f /\
          PortfolioItem.category it = JS.or_default category "未分类" /\
          PortfolioItem.title it = "作品" /\
          PortfolioItem.description it = "")
       files items /\
     (forall n it,
        nth_error items n = Some it ->
        PortfolioItem.id it = uuidv4 e n /\
        PortfolioItem.createdAt it = Date_now e n) /\
     body resp =
       success "success"
         [("uploadedItems",
           JS.JArr
             (map (fun it =>
                     JS.JObj [("itemId", JS.JStr (PortfolioItem.id it));
                              ("itemUrl", JS.JStr (PortfolioItem.url it))])
                items))] /\
     db_json w' = (if fs_writeFile e then Some (dbData w') else db_json w)) /\
  sessions (dbData w') = sessions (dbData w).
Proof.
  simpl. unfold post_portfolio_upload.
  destruct (length files =? 0)%nat eqn:Hlen.
  - apply length_zero_nil in Hlen. simpl.
    repeat split; auto; try tauto; intros; contradiction.
  - assert (Hne : files <> []).
    { intros H. apply length_zero_nil in H. congruence. }
    simpl. split; [|split; [|split]].
    + split; [discriminate | contradiction].
    + discriminate.
    + intros _. split; [reflexivity|].
      exists (new_items e 0 category files). autorewrite with world. simpl.
      split; [reflexivity|]. split; [apply new_items_fields|].
      split; [|split; reflexivity].
      intros n it H. now apply new_items_nth in H.
    + now autorewrite with world.
Qed.

Lemma sort_sorted_id {A} (cmp : A -> A -> Z) l :
  Sorted (fun a b => cmp a b <= 0) l -> JS.sort cmp l = l.
Proof.
  induction 1 as [|a l Hs IH Hhd]; simpl; auto.
  rewrite IH. destruct Hhd as [|b r Hab]; simpl; auto.
  apply Z.leb_le in Hab. now rewrite Hab.
Qed.

Lemma sort_idempotent {A} (cmp : A -> A -> Z) l :
  (forall x y, cmp x y <= 0 \/ cmp y x <= 0) ->
  JS.sort cmp (JS.sort cmp l) = JS.sort cmp l.
Proof. intros Ht. apply sort_sorted_id. now apply sort_sorted. Qed.

Lemma newest_item_first_total x y :
  newest_item_first x y <= 0 \/ newest_item_first y x <= 0.
Proof. unfold newest_item_first. lia. Qed.

Lemma sort_newest_item_first l :
  StronglySorted item_not_older (JS.sort newest_item_first l).
Proof.
  apply Sorted_StronglySorted.
  - intros a b c. unfold item_not_older. lia.
  - pose proof (sort_sorted newest_item_first newest_item_first_total l) as H.
    induction H as [|a r Hr IH Hhd]; constructor; auto.
    destruct Hhd; constructor. unfold item_not_older, newest_item_first in *. lia.
Qed.

(** X6. [GET /portfolio] answers 200 with the stored items the category
    selects (all of them for no category, an empty one or "all"), newest
    first, equal dates in stored order.  With a selecting category nothing
    changes; without one the stored array itself is left in the order
    shown, the sessions and the console as they were.  [db.json] is never
    written. *)
Theorem get_portfolio_outcome (e : Env) (category : option string) (w : World) :
  let resp := fst (handle e (ListPortfolio category) w) in
  let w' := snd (handle e (ListPortfolio category) w) in
  let items := portfolioItems (dbData w) in
  exists shown,
    resp =
      respond 200
        (success "success"
           [("portfolioItems", JS.JArr (map item_to_json shown))]) /\
    (forall it, In it shown <-> In it items /\ category_selects category it) /\
    StronglySorted item_not_older shown /\
    (forall c,
       category = Some c -> c <> "" -> c <> "all" ->
       Permutation shown
         (filter (fun it => String.eqb (PortfolioItem.category it) c) items) /\
       (forall t,
          filter (fun it => PortfolioItem.createdAt it =? t) shown
          = filter (fun it => PortfolioItem.createdAt it =? t)
              (filter (fun it => String.eqb (PortfolioItem.category it) c)
                 items)) /\
       w' = w) /\
    (category = None \/ category = Some "" \/ category = Some "all" ->
     Permutation shown items /\
     (forall t,
        filter (fun it => PortfolioItem.createdAt it =? t) shown
        = filter (fun it => PortfolioItem.createdAt it =? t) items) /\
     portfolioItems (dbData w') = shown /\
     sessions (dbData w') = sessions (dbData w) /\
     console w' = console w) /\
    db_json w' = db_json w.
Proof.
  simpl. unfold get_portfolio.
  assert (Hstable : forall l t,
            filter (fun it => PortfolioItem.createdAt it =? t)
              (JS.sort newest_item_first l)
            = filter (fun it => PortfolioItem.createdAt it =? t) l).
  { intros l t. apply sort_filter. intros x y Hx Hy.
    apply Z.eqb_eq in Hx, Hy. unfold newest_item_first. lia. }
  destruct (present category) as [c|] eqn:Hp.
  - apply present_Some in Hp as [-> Hne].
    destruct (String.eqb_spec c "all") as [->|Hall]; simpl.
    + exists (JS.sort newest_item_first (portfolioItems (dbData w))).
      split; [reflexivity|]. split; [|split; [|split; [|split]]].
      * intros it. rewrite sort_In. simpl. tauto.
      * apply sort_newest_item_first.
      * intros c [= <-] _ H. contradiction.
      * intros _. split; [apply sort_perm|]. split; [apply Hstable|]. auto.
      * reflexivity.
    + exists (JS.sort newest_item_first
                (filter (fun it => String.eqb (PortfolioItem.category it) c)
                   (portfolioItems (dbData w)))).
      split; [reflexivity|]. split; [|split; [|split; [|split]]].
      * intros it. rewrite sort_In, filter_In, String.eqb_eq. simpl.
        intuition congruence.
      * apply sort_newest_item_first.
      * intros c0 [= <-] _ _. split; [apply sort_perm|]. split; [apply Hstable|].
        reflexivity.
      * intros [H|[[= H]|[= H]]]; [discriminate | contradiction | contradiction].
      * reflexivity.
  - apply present_None in Hp. simpl.
    exists (JS.sort newest_item_first (portfolioItems (dbData w))).
    split; [reflexivity|]. split; [|split; [|split; [|split]]].
    + intros it. rewrite sort_In. destruct Hp as [->| ->]; simpl; tauto.
    + apply sort_newest_item_first.
    + intros c Hc Hne _. destruct Hp as [H|H]; rewrite H in Hc;
        [discriminate | injection Hc as <-; contradiction].
    + intros _. split; [apply sort_perm|]. split; [apply Hstable|]. auto.
    + reflexivity.
Qed.

(** X7. Asking for the portfolio a second time gives the same answer and
    changes nothing more. *)
Theorem get_portfolio_twice (e1 e2 : Env) (category : option string)
    (w : World) :
  let w1 := snd (handle e1 (ListPortfolio category) w) in
  handle e2 (ListPortfolio category) w1
  = (fst (handle e1 (ListPortfolio category) w), w1).
Proof.
  simpl. unfold get_portfolio.
  destruct (present category) as [c|]; [destruct (negb (String.eqb c "all"))|];
    simpl; try reflexivity;
    rewrite sort_idempotent by apply newest_item_first_total; reflexivity.
Qed.

(** ** Writing [db.json] *)

(** Takes a handler apart along its tests. *)
Ltac handler_cases :=
  repeat match goal with
         | |- context [match ?x with _ => _ end] =>
             lazymatch x with
             | fs_writeFile _ => fail
             | _ => destruct x eqn:?
             end
         end.

Lemma createNewSession_with_writeFile b e sid name w :
  createNewSession (with_writeFile b e) sid name w
  = createNewSession e sid name w.
Proof. reflexivity. Qed.

Lemma new_items_with_writeFile b e c files : forall i,
  new_items (with_writeFile b e) i c files = new_items e i c files.
Proof.
  induction files as [|f files IH]; intros i; simpl; auto. now rewrite IH.
Qed.

(** X8. Whether [fs.writeFile] succeeds or fails, every request gets the
    same response and leaves the same [dbData]: a failed write is only
    logged. *)
Theorem response_ignores_write_failure (e : Env) (b : bool) (r : Request)
    (w : World) :
  fst (handle (with_writeFile b e) r w) = fst (handle e r w) /\
  dbData (snd (handle (with_writeFile b e) r w)) = dbData (snd (handle e r w)).
Proof.
  destruct r; simpl.
  - unfold post_upload. destruct file as [filename|]; [|auto].
    destruct (present sessionId) as [sid|];
      [destruct (JS.get sid (sessions (dbData w))) as [s|];
       [destruct (negb _ && _)|]|];
      simpl; rewrite ?createNewSession_with_writeFile;
      autorewrite with world; auto.
  - unfold delete_photo. handler_cases; simpl; autorewrite with world; auto.
  - unfold delete_session. handler_cases; simpl; autorewrite with world; auto.
  - unfold post_finishSession. handler_cases; simpl; autorewrite with world;
      auto.
  - split; reflexivity.
  - split; reflexivity.
  - unfold post_submitSelection. handler_cases; simpl;
      autorewrite with world; auto.
  - split; reflexivity.
  - unfold post_portfolio_upload. handler_cases; simpl;
      rewrite ?new_items_with_writeFile; autorewrite with world; auto.
  - split; reflexivity.
  - unfold delete_portfolio. handler_cases; simpl; autorewrite with world;
      auto.
Qed.

(** X9. A response status is one of 200, 400, 403, 404 and 500.  A request
    that is not answered with 200 leaves [dbData] and [db.json] as they
    were, and one answered with 400, 403 or 404 leaves the console too.
    The session listing, the photo listing and the QR code route never
    change [dbData] or [db.json]. *)
Theorem failed_request_changes_nothing (e : Env) (r : Request) (w : World) :
  let resp := fst (handle e r w) in
  let w' := snd (handle e r w) in
  In (http_status resp) [200; 400; 403; 404; 500] /\
  (http_status resp <> 200 -> dbData w' = dbData w /\ db_json w' = db_json w) /\
  (http_status resp = 400 \/ http_status resp = 403 \/ http_status resp = 404 ->
   w' = w) /\
  (is_read_only r -> dbData w' = dbData w /\ db_json w' = db_json w).
Proof.
  destruct r; simpl;
    unfold post_upload, delete_photo, delete_session, post_finishSession,
      get_sessions, get_photos, post_submitSelection, post_generateQRCode,
      post_portfolio_upload, get_portfolio, delete_portfolio;
    handler_cases; simpl;
    (split; [tauto|]);
    (split; [try (intros H; now contradiction H); auto|]);
    (split; [try (intros [H|[H|H]]; discriminate H); auto|]);
    try (intros []); auto.
Qed.

(** X10. While writes succeed, [db.json] keeps up with memory: if it holds
    [dbData] before a request it holds [dbData] after it, for every route
    but the portfolio listing, after which it holds the same sessions and
    the same portfolio items, possibly in another order. *)
Theorem writes_keep_db_json_in_sync (e : Env) (r : Request) (w : World)
    (Hwrite : fs_writeFile e = true) (Hsync : in_sync w) :
  let w' := snd (handle e r w) in
  ((forall c, r <> ListPortfolio c) -> in_sync w') /\
  exists d,
    db_json w' = Some d /\
    sessions d = sessions (dbData w') /\
    Permutation (portfolioItems d) (portfolioItems (dbData w')).
Proof.
  unfold in_sync in *.
  destruct r; simpl;
    unfold post_upload, delete_photo, delete_session, post_finishSession,
      get_sessions, get_photos, post_submitSelection, post_generateQRCode,
      post_portfolio_upload, get_portfolio, delete_portfolio;
    handler_cases; simpl; autorewrite with world; rewrite ?Hwrite;
    try (split;
         [ intros _; first [assumption | reflexivity]
         | eexists; split; [first [eassumption | reflexivity]|];
           split; [reflexivity|];
           autorewrite with world; apply Permutation_refl ]).
  all: split; [intros H; exfalso; eapply H; reflexivity|].
  all: exists (dbData w); split; [assumption|]; split; [reflexivity|];
    simpl; symmetry; apply sort_perm.
Qed.

Lemma writes_keep_db_json_in_sync_witness :
  fs_writeFile Example.env = true /\
  in_sync Example.with_portfolio /\
  in_sync
    (snd (handle Example.env (FinishSession (Some "session-1"))
            Example.with_portfolio)).
Proof.
  split; [reflexivity|]. split; [reflexivity|].
  destruct (writes_keep_db_json_in_sync Example.env
              (FinishSession (Some "session-1")) Example.with_portfolio
              eq_refl eq_refl) as [Hsync _].
  apply Hsync. discriminate.
Defined.

(** Listing the whole portfolio reorders the array in memory and writes
    nothing: here the file keeps the upload order. *)
Example listing_portfolio_leaves_db_json_behind :
  in_sync Example.with_portfolio /\
  map PortfolioItem.filename
    (portfolioItems
       (dbData (snd (handle Example.env (ListPortfolio None)
                       Example.with_portfolio))))
  = ["b.jpg"; "a.jpg"] /\
  option_map (fun d => map PortfolioItem.filename (portfolioItems d))
    (db_json (snd (handle Example.env (ListPortfolio None)
                     Example.with_portfolio)))
  = Some ["a.jpg"; "b.jpg"].
Proof. repeat split. Qed.

(** ** Pages of the session listing *)

Lemma firstn_plus {A} (n m : nat) (l : list A) :
  firstn (n + m) l = (firstn n l ++ firstn m (skipn n l))%list.
Proof.
  revert l. induction n as [|n IH]; intros l; simpl; auto.
  destruct l as [|a l]; simpl.
  - now rewrite firstn_nil.
  - now rewrite IH.
Qed.

Lemma list_sessions_page st q pg lm p l db :
  JS.parseInt_string pg = Some p -> JS.parseInt_string lm = Some l ->
  1 <= p -> 0 <= l ->
  Page.sessions (list_sessions st q (Some pg) (Some lm) db)
  = firstn (Z.to_nat l)
      (skipn (Z.to_nat ((p - 1) * l)) (filteredSessions st q db)).
Proof.
  intros Hp Hl Hp1 Hl0. unfold list_sessions. simpl. rewrite Hp, Hl. simpl.
  apply slice_page; nia.
Qed.

(** X11. For a page of at least 1 and a limit of at least 0, with the next
    page and the index after its last entry safe integers (at most
    2^53 - 1, where the numbers of the code are exact), a page and the next
    one put together are the [2 * limit] entries that follow the first
    [(page - 1) * limit] of the sorted listing: nothing is skipped or
    repeated between them.  A page has at most [limit] entries, and page 1
    starts at the first entry.  The search is over plain text. *)
Theorem consecutive_pages_are_adjacent (status search : option string)
    (pg pg' lm : string) (p l : Z) (db : DB)
    (Hplain : plain_search search db)
    (Hp : JS.parseInt_string pg = Some p)
    (Hp' : JS.parseInt_string pg' = Some (p + 1))
    (Hl : JS.parseInt_string lm = Some l)
    (Hp1 : 1 <= p) (Hl0 : 0 <= l)
    (Hpage : p + 1 <= JS.MAX_SAFE_INTEGER)
    (Hlast : (p + 1) * l <= JS.MAX_SAFE_INTEGER) :
  let page x :=
    Page.sessions (list_sessions status search (Some x) (Some lm) db) in
  let sorted := filteredSessions status search db in
  (page pg ++ page pg')%list
  = firstn (Z.to_nat l + Z.to_nat l)
      (skipn (Z.to_nat ((p - 1) * l)) sorted) /\
  (length (page pg) <= Z.to_nat l)%nat /\
  (p = 1 -> page pg = firstn (Z.to_nat l) sorted).
Proof.
  intros page sorted. unfold page.
  rewrite (list_sessions_page status search pg lm p l db Hp Hl Hp1 Hl0).
  rewrite (list_sessions_page status search pg' lm (p + 1) l db Hp' Hl
             ltac:(lia) Hl0).
  fold sorted. split; [|split].
  - rewrite firstn_plus, skipn_skipn. do 3 f_equal.
    replace ((p + 1 - 1) * l) with ((p - 1) * l + l) by lia.
    rewrite Z2Nat.inj_add by nia. lia.
  - rewrite length_firstn. lia.
  - intros ->. reflexivity.
Qed.

Lemma consecutive_pages_are_adjacent_witness :
  plain_search None Example.two_sessions /\
  JS.parseInt_string "1" = Some 1 /\
  JS.parseInt_string "2" = Some (1 + 1) /\
  (1 + 1) * 1 <= JS.MAX_SAFE_INTEGER /\
  (Page.sessions
     (list_sessions None None (Some "1") (Some "1") Example.two_sessions)
   ++ Page.sessions
        (list_sessions None None (Some "2") (Some "1") Example.two_sessions))%list
  = firstn (Z.to_nat 1 + Z.to_nat 1)
      (skipn (Z.to_nat ((1 - 1) * 1))
         (filteredSessions None None Example.two_sessions)).
Proof.
  split; [exact I|]. split; [reflexivity|]. split; [reflexivity|].
  split; [unfold JS.MAX_SAFE_INTEGER; lia|].
  apply (consecutive_pages_are_adjacent None None "1" "2" "1" 1 1
           Example.two_sessions I eq_refl eq_refl eq_refl);
    unfold JS.MAX_SAFE_INTEGER; lia.
Defined.

(** ** What an upload touches *)

Lemma upload_other_sessions e filename sessionId name w k :
  k <> match present sessionId with Some sid => sid | None => uuidv4 e 1 end ->
  session_of (snd (post_upload e (Some filename) sessionId name w)) k
  = session_of w k.
Proof.
  unfold post_upload. intros Hk.
  destruct (present sessionId) as [sid|];
    [destruct (JS.get sid (sessions (dbData w))) as [s|];
     [destruct (negb _ && _)|]|];
    simpl; autorewrite with world;
    rewrite ?session_of_modify_other, ?session_of_createNewSession_other
      by exact Hk;
    reflexivity.
Qed.

Lemma upload_existing_session e filename sessionId name w sid s :
  present sessionId = Some sid -> session_of w sid = Some s ->
  session_of (snd (post_upload e (Some filename) sessionId name w)) sid
  = Some
      (Session.with_photos
         (Session.photos s ++ [uploaded_photo e filename])
         (if String.eqb (Session.customerName s) unknown_customer
          then Session.with_customerName
                 (JS.or_default name unknown_customer) s
          else s)).
Proof.
  intros Hp Hs. unfold post_upload. rewrite Hp.
  fold (session_of w sid). rewrite Hs.
  assert (Hname : String.eqb (JS.or_default name unknown_customer) "" = false).
  { unfold JS.or_default. destruct name as [n|]; [|reflexivity].
    destruct (String.eqb n "") eqn:E; [reflexivity | exact E]. }
  rewrite Hname. simpl.
  destruct (String.eqb (Session.customerName s) unknown_customer); simpl;
    autorewrite with world.
  - erewrite session_of_modify_same
      by (apply session_of_modify_same; exact Hs).
    reflexivity.
  - erewrite session_of_modify_same by exact Hs. reflexivity.
Qed.

(** X12. [POST /upload] without a file answers 400 and changes nothing;
    with one it answers 200.  It changes no session but the one it names
    (or creates under the generated id) and never the portfolio.  Stated
    for a session id (the given one, or the generated one) that is not a
    name every object inherits: under such a name the handler throws at
    [photos.push]. *)
Theorem upload_touches_one_session (e : Env)
    (file sessionId customerName : option string) (w : World)
    (Hown : JS.inherited
              (match present sessionId with
               | Some sid => sid
               | None => uuidv4 e 1
               end) = false) :
  let resp := fst (handle e (Upload file sessionId customerName) w) in
  let w' := snd (handle e (Upload file sessionId customerName) w) in
  (file = None -> http_status resp = 400 /\ w' = w) /\
  (file <> None -> http_status resp = 200) /\
  (forall k,
     k <> match present sessionId with Some sid => sid | None => uuidv4 e 1 end ->
     session_of w' k = session_of w k) /\
  portfolioItems (dbData w') = portfolioItems (dbData w).
Proof.
  simpl. destruct file as [filename|].
  - split; [discriminate|]. split; [|split].
    + intros _. unfold post_upload.
      destruct (present sessionId) as [sid|];
        [destruct (JS.get sid (sessions (dbData w))) as [s|];
         [destruct (negb _ && _)|]|]; reflexivity.
    + intros k Hk. now apply upload_other_sessions.
    + unfold post_upload.
      destruct (present sessionId) as [sid|];
        [destruct (JS.get sid (sessions (dbData w))) as [s|];
         [destruct (negb _ && _)|]|];
        simpl; now autorewrite with world.
  - simpl. repeat split; auto. intros H. now contradiction H.
Qed.

Lemma upload_touches_one_session_witness :
  JS.inherited "session-1" = false /\
  http_status
    (fst (handle Example.env
            (Upload (Some "file-2.jpg") (Some "session-1") None)
            (Example.world ready))) = 200 /\
  session_of
    (snd (handle Example.env
            (Upload (Some "file-2.jpg") (Some "session-1") None)
            (Example.world ready))) "session-3"
  = session_of (Example.world ready) "session-3".
Proof.
  split; [reflexivity|].
  destruct (upload_touches_one_session Example.env (Some "file-2.jpg")
              (Some "session-1") None (Example.world ready) eq_refl)
    as (_ & Hok & Hframe & _).
  split.
  - apply Hok. discriminate.
  - apply Hframe. discriminate.
Defined.

(** ** What no request changes *)

Lemma In_splice1 {A} (x : A) i l : In x (JS.splice1 i l) -> In x l.
Proof.
  unfold JS.splice1. rewrite in_app_iff.
  intros [H|H]; [now apply In_firstn_In in H | now apply In_skipn_In in H].
Qed.

(** X13. For a session stored before and after a request (whose generated
    session id is not this session's): its creation time is the same; its
    customer name is the same unless it was the "unknown customer" text;
    and each of its photos is either the photo this upload added or a photo
    it had, with the same id, URL and file name, and the same selection
    flag unless the request was a selection on this session. *)
Theorem stored_fields_are_kept (e : Env) (r : Request) (w : World)
    (k : string) (s s' : Session.t)
    (Hs : session_of w k = Some s)
    (Hs' : session_of (snd (handle e r w)) k = Some s')
    (Hfresh : uuidv4 e 1 <> k) :
  Session.createdAt s' = Session.createdAt s /\
  (Session.customerName s' = Session.customerName s
   \/ Session.customerName s = unknown_customer) /\
  (forall p',
     In p' (Session.photos s') ->
     (exists p,
        In p (Session.photos s) /\
        Photo.id p' = Photo.id p /\ Photo.url p' = Photo.url p /\
        Photo.filename p' = Photo.filename p /\
        (Photo.selected p' = Photo.selected p
         \/ exists ids, r = SubmitSelection (Some k) (Some (JS.JArr ids))))
     \/ (exists file sid name,
           r = Upload (Some file) sid name /\ p' = uploaded_photo e file)).
Proof.
  assert (Hsame : forall p', In p' (Session.photos s) ->
            (exists p,
               In p (Session.photos s) /\
               Photo.id p' = Photo.id p /\ Photo.url p' = Photo.url p /\
               Photo.filename p' = Photo.filename p /\
               (Photo.selected p' = Photo.selected p
                \/ exists ids, r = SubmitSelection (Some k) (Some (JS.JArr ids))))
            \/ (exists file sid name,
                  r = Upload (Some file) sid name /\ p' = uploaded_photo e file)).
  { intros p' Hp'. left. exists p'. auto 10. }
  pose proof (handle_session_change e r w k) as Hc.
  rewrite Hs, Hs' in Hc.
  inversion Hc as
    [ o | | o s1 file sessionId name Hr Hwhich
      | s0 s1 p file sessionId name Hr
      | s0 i pid Hr | s0 Hr | s0 ids Hr ]; subst.
  - (* nothing changed *) auto.
  - (* created: excluded *)
    destruct Hwhich as [[_ ?]|[_ ?]]; [discriminate | congruence].
  - (* upload to a stored session *)
    clear Hc. cbn [handle] in Hs'.
    destruct (present sessionId) as [sid|] eqn:Hp.
    + destruct (String.eqb_spec k sid) as [->|Hne].
      * rewrite (upload_existing_session e file sessionId name w sid s Hp Hs)
          in Hs'.
        injection Hs' as <-. simpl.
        destruct (String.eqb_spec (Session.customerName s) unknown_customer)
          as [Hu|Hu]; simpl.
        -- split; [reflexivity|]. split; [now right|].
           intros p' Hp'. apply in_app_iff in Hp' as [Hp'|[<-|[]]]; eauto 10.
        -- split; [reflexivity|]. split; [now left|].
           intros p' Hp'. apply in_app_iff in Hp' as [Hp'|[<-|[]]]; eauto 10.
      * rewrite upload_other_sessions in Hs' by (rewrite Hp; exact Hne).
        rewrite Hs in Hs'. injection Hs' as <-. auto.
    + rewrite upload_other_sessions in Hs'
        by (rewrite Hp; intros ->; now apply Hfresh).
      rewrite Hs in Hs'. injection Hs' as <-. auto.
  - (* a photo removed *)
    split; [reflexivity|]. split; [now left|]. simpl.
    intros p' Hp'. apply In_splice1 in Hp'. auto.
  - (* finished *)
    split; [reflexivity|]. split; [now left|]. exact Hsame.
  - (* selection recorded *)
    split; [reflexivity|]. split; [now left|]. simpl.
    intros p' Hp'. apply in_map_iff in Hp' as (p & <- & Hp).
    left. exists p. simpl. eauto 10.
Qed.

Lemma stored_fields_are_kept_witness :
  session_of (Example.world ready) "session-1"
    = Some (Example.session1 ready) /\
  session_of
    (snd (handle Example.env
            (Upload (Some "file-2.jpg") (Some "session-1") (Some "Bo"))
            (Example.world ready))) "session-1"
    = Some (Session.with_photos [Example.photo1; Example.photo2]
              (Example.session1 ready)) /\
  uuidv4 Example.env 1 <> "session-1" /\
  Session.createdAt
    (Session.with_photos [Example.photo1; Example.photo2]
       (Example.session1 ready))
  = Session.createdAt (Example.session1 ready).
Proof.
  assert (Hfresh : uuidv4 Example.env 1 <> "session-1") by discriminate.
  split; [reflexivity|]. split; [reflexivity|]. split; [exact Hfresh|].
  apply (stored_fields_are_kept Example.env
           (Upload (Some "file-2.jpg") (Some "session-1") (Some "Bo"))
           (Example.world ready) "session-1" (Example.session1 ready)
           (Session.with_photos [Example.photo1; Example.photo2]
              (Example.session1 ready))
           eq_refl eq_refl Hfresh).
Defined.

(** ** From upload to selection *)

Lemma get_photos_of_session sid clientType w s :
  sid <> "" -> session_of w sid = Some s ->
  fst (get_photos (Some sid) clientType w)
  = if is_draft (Session.status s)
       && negb (match clientType with
                | Some v => String.eqb v "photographer"
                | None => false
                end)
    then respond 403 (failure "该选片码尚未准备好，请联系摄影师")
    else respond 200
           (success "success"
              [("photos", JS.JArr (map photo_for_client (Session.photos s)))]).
Proof.
  intros Hne Hs. unfold get_photos.
  assert (Hp : present (Some sid) = Some sid) by (apply present_Some; auto).
  rewrite Hp. fold (session_of w sid). rewrite Hs.
  now destruct (is_draft _ && _).
Qed.

(** X14. From an upload that names no session to the selection: the new
    session is hidden from clients (403) and shown to the photographer;
    after [finishSession] a client sees its photo, not selected; after
    [submitSelection] with the photo's id the session is [submitted], the
    photo is selected, and the client sees it so. *)
Theorem selection_workflow (e1 e2 e3 e4 : Env) (filename : string)
    (name : option string) (w : World)
    (Hid : uuidv4 e1 1 <> "") :
  let sid := uuidv4 e1 1 in
  let photo := uploaded_photo e1 filename in
  let w1 := snd (handle e1 (Upload (Some filename) None name) w) in
  let w2 := snd (handle e2 (FinishSession (Some sid)) w1) in
  let w3 :=
    snd (handle e3
           (SubmitSelection (Some sid)
              (Some (JS.JArr [JS.JStr (Photo.id photo)]))) w2) in
  http_status (fst (handle e4 (ListPhotos (Some sid) None) w1)) = 403 /\
  fst (handle e4 (ListPhotos (Some sid) (Some "photographer")) w1)
    = respond 200
        (success "success" [("photos", JS.JArr [photo_for_client photo])]) /\
  fst (handle e4 (ListPhotos (Some sid) None) w2)
    = respond 200
        (success "success" [("photos", JS.JArr [photo_for_client photo])]) /\
  session_of w3 sid
    = Some {| Session.customerName := JS.or_default name unknown_customer;
              Session.photos := [Photo.with_selected true photo];
              Session.status := submitted;
              Session.createdAt := Date_now e1 0 |} /\
  fst (handle e4 (ListPhotos (Some sid) None) w3)
    = respond 200
        (success "success"
           [("photos",
             JS.JArr [photo_for_client (Photo.with_selected true photo)])]).
Proof.
  intros sid photo w1 w2 w3.
  pose (s1 := {| Session.customerName := JS.or_default name unknown_customer;
                 Session.photos := [photo];
                 Session.status := draft;
                 Session.createdAt := Date_now e1 0 |}).
  assert (H1 : session_of w1 sid = Some s1).
  { unfold w1. simpl. unfold post_upload. simpl. autorewrite with world.
    erewrite session_of_modify_same by apply session_of_createNewSession_same.
    reflexivity. }
  assert (Hp : present (Some sid) = Some sid) by (apply present_Some; auto).
  assert (H2 : session_of w2 sid = Some (Session.with_status ready s1)).
  { unfold w2. simpl. unfold post_finishSession. rewrite Hp.
    fold (session_of w1 sid). rewrite H1. simpl. autorewrite with world.
    now apply session_of_modify_same. }
  assert (H3 : session_of w3 sid
               = Some (Session.with_status submitted
                         (mark_selected [JS.JStr (Photo.id photo)]
                            (Session.with_status ready s1)))).
  { unfold w3.
    rewrite (submitSelection_dbData e3 sid _ w2 _ Hid H2). simpl.
    autorewrite with world. unfold session_of. simpl. apply get_set_same. }
  assert (Hsel : mark_selected [JS.JStr (Photo.id photo)]
                   (Session.with_status ready s1)
                 = Session.with_photos [Photo.with_selected true photo]
                     (Session.with_status ready s1)).
  { unfold mark_selected. simpl. unfold JS.array_includes. simpl.
    now rewrite String.eqb_refl. }
  rewrite Hsel in H3.
  cbn [handle].
  rewrite (get_photos_of_session sid None w1 s1 Hid H1).
  rewrite (get_photos_of_session sid (Some "photographer") w1 s1 Hid H1).
  rewrite (get_photos_of_session sid None w2 _ Hid H2).
  rewrite (get_photos_of_session sid None w3 _ Hid H3).
  repeat split; try reflexivity. exact H3.
Qed.

Lemma selection_workflow_witness :
  uuidv4 Example.env 1 <> "" /\
  http_status
    (fst (handle Example.env (ListPhotos (Some "session-2") None)
            Example.after_upload)) = 403.
Proof.
  assert (Hid : uuidv4 Example.env 1 <> "") by discriminate.
  split; [exact Hid|].
  apply (selection_workflow Example.env Example.env Example.env Example.env
           "file-2.jpg" (Some "Bo") fresh_world Hid).
Defined.

(** ** Where multer stores a file *)

(** X15. multer stores a file in the upload directory exactly when the
    request URL begins with "/upload", in the portfolio directory exactly
    when it begins with "/portfolio/upload", and refuses it otherwise. *)
Theorem destination_by_prefix (url : string) :
  (destination url = Some UPLOAD_DIR <-> exists rest, url = "/upload" ++ rest) /\
  (destination url = Some PORTFOLIO_DIR <->
     exists rest, url = "/portfolio/upload" ++ rest) /\
  (destination url = None <->
     ~ (exists rest, url = "/upload" ++ rest) /\
     ~ (exists rest, url = "/portfolio/upload" ++ rest)).
Proof.
  unfold destination.
  assert (Hdisjoint : forall a b,
            "/upload" ++ a = "/portfolio/upload" ++ b -> False)
    by (intros a b H; discriminate H).
  destruct (JS.startsWith "/upload" url) eqn:Hu.
  - apply startsWith_prefix in Hu as [a ->].
    split; [|split].
    + split; eauto.
    + split; [discriminate|]. intros [b Hb]. exfalso. eauto.
    + split; [discriminate|]. intros [H _]. exfalso. eauto.
  - assert (Hnu : ~ (exists rest, url = "/upload" ++ rest)).
    { intros H. apply startsWith_prefix in H. congruence. }
    destruct (JS.startsWith "/portfolio/upload" url) eqn:Hp.
    + apply startsWith_prefix in Hp as [b ->].
      split; [|split].
      * split; [discriminate|]. intros H. contradiction.
      * split; eauto.
      * split; [discriminate|]. intros [_ H]. exfalso. eauto.
    + assert (Hnp : ~ (exists rest, url = "/portfolio/upload" ++ rest)).
      { intros H. apply startsWith_prefix in H. congruence. }
      split; [|split].
      * split; [discriminate | contradiction].
      * split; [discriminate | contradiction].
      * split; auto.
Qed.

(** ** Loading [db.json] *)

Lemma get_flat_map_keys {V} (o : JS.Obj V) k ks :
  JS.get k
    (flat_map
       (fun k' => match JS.get k' o with Some v => [(k', v)] | None => [] end)
       ks)
  = if existsb (String.eqb k) ks then JS.get k o else None.
Proof.
  induction ks as [|k' ks IH]; simpl; auto.
  destruct (JS.get k' o) as [v|] eqn:Hk'; simpl.
  - destruct (String.eqb_spec k k') as [->|Hne]; simpl; auto.
  - destruct (String.eqb_spec k k') as [->|Hne]; simpl; auto.
    rewrite IH, Hk'. now destruct (existsb _ ks).
Qed.

Lemma get_entries {V} (o : JS.Obj V) k : JS.get k (entries o) = JS.get k o.
Proof.
  unfold entries. rewrite get_flat_map_keys.
  destruct (existsb (String.eqb k) (JS.keys o)) eqn:Hex; auto.
  destruct (JS.get k o) as [v|] eqn:Hk; auto.
  apply get_In_fst, keys_In in Hk.
  assert (Hyes : existsb (String.eqb k) (JS.keys o) = true).
  { apply existsb_exists. exists k. split; auto. apply String.eqb_refl. }
  congruence.
Qed.

Lemma map_fst_entries {V} (o : JS.Obj V) : map fst (entries o) = JS.keys o.
Proof.
  unfold entries.
  assert (H : forall k, In k (JS.keys o) -> exists v, JS.get k o = Some v).
  { intros k Hk. apply keys_In in Hk. now apply In_fst_get. }
  induction (JS.keys o) as [|k ks IH]; simpl; auto.
  destruct (H k (or_introl eq_refl)) as [v ->]. simpl.
  f_equal. apply IH. intros k' Hk'. apply H. now right.
Qed.

Lemma filter_all {A} (f : A -> bool) l :
  Forall (fun x => f x = true) l -> filter f l = l.
Proof.
  induction 1 as [|x l Hx Hl IH]; simpl; auto. now rewrite Hx, IH.
Qed.

Lemma filter_none {A} (f : A -> bool) l :
  Forall (fun x => f x = false) l -> filter f l = [].
Proof.
  induction 1 as [|x l Hx Hl IH]; simpl; auto. now rewrite Hx.
Qed.

Lemma index_cmp_total a b : JS.index_cmp a b <= 0 \/ JS.index_cmp b a <= 0.
Proof.
  unfold JS.index_cmp.
  destruct (JS.array_index a), (JS.array_index b); lia.
Qed.

Lemma keys_entries {V} (o : JS.Obj V) : JS.keys (entries o) = JS.keys o.
Proof.
  unfold JS.keys at 1. rewrite map_fst_entries. unfold JS.keys.
  set (ks := map fst o).
  set (A := filter JS.is_array_index ks).
  set (B := filter (fun k => negb (JS.is_array_index k)) ks).
  assert (HA : Forall (fun k => JS.is_array_index k = true)
                 (JS.sort JS.index_cmp A)).
  { apply Forall_forall. intros k Hk. apply sort_In in Hk.
    now apply filter_In in Hk. }
  assert (HB : Forall (fun k => negb (JS.is_array_index k) = true) B).
  { apply Forall_forall. intros k Hk. now apply filter_In in Hk. }
  rewrite !filter_app.
  rewrite (filter_all _ _ HA), (filter_all _ _ HB).
  rewrite (filter_none JS.is_array_index B).
  - rewrite (filter_none (fun k => negb (JS.is_array_index k))
               (JS.sort JS.index_cmp A)).
    + rewrite app_nil_r. simpl.
      now rewrite sort_idempotent by apply index_cmp_total.
    + eapply Forall_impl; [|exact HA]. simpl. intros k ->. reflexivity.
  - eapply Forall_impl; [|exact HB]. simpl. intros k Hk.
    now apply negb_true_iff in Hk.
Qed.

Lemma summaries_entries ss : summaries (entries ss) = summaries ss.
Proof.
  unfold summaries. rewrite keys_entries.
  apply flat_map_ext. intros k. now rewrite get_entries.
Qed.

(** X16. Loading what a successful [saveData] wrote restores the data:
    every session is found under its id again, [Object.keys] lists the ids
    in the same order, the portfolio is the same, and every session listing
    and portfolio listing gives the same entries as before. *)
Theorem restart_restores_dbData (e e' : Env) (w w0 : World) (d : DB)
    (Hsaved : db_json (saveData e w) = Some d)
    (Hwrite : fs_writeFile e = true) :
  let w' := snd (loadData e' (ReadParsed (stored d)) w0) in
  (forall k, session_of w' k = session_of w k) /\
  JS.keys (sessions (dbData w')) = JS.keys (sessions (dbData w)) /\
  portfolioItems (dbData w') = portfolioItems (dbData w) /\
  (forall status search page limit,
     list_sessions status search page limit (dbData w')
     = list_sessions status search page limit (dbData w)) /\
  (forall category,
     fst (get_portfolio category w') = fst (get_portfolio category w)).
Proof.
  rewrite db_json_saveData, Hwrite in Hsaved. injection Hsaved as <-.
  simpl. split; [|split; [|split; [|split]]].
  - intros k. unfold session_of. simpl. apply get_entries.
  - apply keys_entries.
  - reflexivity.
  - intros st q pg lm. unfold list_sessions, filteredSessions. simpl.
    now rewrite summaries_entries.
  - intros c. unfold get_portfolio. simpl.
    destruct (present c) as [v|]; [destruct (negb _)|]; reflexivity.
Qed.

Lemma restart_restores_dbData_witness :
  db_json (saveData Example.env (Example.world ready))
    = Some (dbData (Example.world ready)) /\
  fs_writeFile Example.env = true /\
  forall k,
    session_of
      (snd (loadData Example.env
              (ReadParsed (stored (dbData (Example.world ready))))
              fresh_world)) k
    = session_of (Example.world ready) k.
Proof.
  split; [reflexivity|]. split; [reflexivity|].
  apply (restart_restores_dbData Example.env Example.env
           (Example.world ready) fresh_world (dbData (Example.world ready))
           eq_refl eq_refl).
Defined.

(** X17. [loadData] after a failed read leaves an empty database; it writes
    it out only when the file was missing (code ENOENT), and leaves
    [db.json] alone after any other failure.  A document without portfolio
    items is loaded with an empty portfolio.  [loadData] never changes
    [db.json] in any other case. *)
Theorem loadData_fallbacks (e : Env) (w : World) :
  (forall code,
     let w' := snd (loadData e (ReadFailed code) w) in
     dbData w' = empty_db /\
     (code = Some "ENOENT" ->
      db_json w' = (if fs_writeFile e then Some empty_db else db_json w)) /\
     (code <> Some "ENOENT" -> db_json w' = db_json w)) /\
  (forall ss,
     dbData (snd (loadData e
                    (ReadParsed {| doc_sessions := ss;
                                   doc_portfolioItems := None |}) w))
     = {| sessions := ss; portfolioItems := [] |}) /\
  (forall read,
     db_json (snd (loadData e read w)) = db_json w
     \/ (read = ReadFailed (Some "ENOENT") /\ fs_writeFile e = true /\
         db_json (snd (loadData e read w)) = Some empty_db)).
Proof.
  split; [|split].
  - intros [c|]; simpl.
    + destruct (String.eqb_spec c "ENOENT") as [->|Hne]; simpl;
        autorewrite with world; simpl.
      * repeat split; auto. intros H. now contradiction H.
      * repeat split; auto. intros [= H]. contradiction.
    + repeat split; auto. discriminate.
  - reflexivity.
  - intros [doc|[c|]]; simpl; auto.
    destruct (String.eqb_spec c "ENOENT") as [->|Hne]; simpl; auto.
    autorewrite with world. simpl.
    destruct (fs_writeFile e); auto.
Qed.

(** ** What a listing says about the store *)

(** X18. Every entry of a session listing describes a stored session: its
    id is stored, and its customer name, status, number of photos and
    creation time are those of that session.  Every stored session has its
    entry in the complete listing, and without filters [total] is the
    number of stored ids. *)
Theorem listed_entries_describe_stored_sessions (w : World) :
  (forall status search page limit x,
     In x (Page.sessions
             (list_sessions status search page limit (dbData w))) ->
     exists s,
       session_of w (Summary.id x) = Some s /\
       Summary.customerName x = Session.customerName s /\
       Summary.status x = Session.status s /\
       Summary.photoCount x = length (Session.photos s) /\
       Summary.createdAt x = Session.createdAt s) /\
  (forall sid s,
     session_of w sid = Some s ->
     In {| Summary.id := sid;
           Summary.customerName := Session.customerName s;
           Summary.status := Session.status s;
           Summary.photoCount := length (Session.photos s);
           Summary.createdAt := Session.createdAt s |}
        (filteredSessions None None (dbData w))) /\
  (forall page limit,
     Page.total (list_sessions None None page limit (dbData w))
     = length (JS.keys (sessions (dbData w)))).
Proof.
  split; [|split].
  - intros st q pg lm x Hx.
    apply In_list_sessions, In_summaries in Hx as (s & Hs & Hx).
    exists s. rewrite Hx. simpl. auto.
  - intros sid s Hs. unfold filteredSessions. apply sort_In. simpl.
    unfold summaries. apply in_flat_map. exists sid. split.
    + apply keys_In. eapply get_In_fst. exact Hs.
    + unfold session_of in Hs. rewrite Hs. now left.
  - intros pg lm. unfold list_sessions, filteredSessions. simpl.
    rewrite sort_length. simpl.
    rewrite <- summaries_ids. now rewrite length_map.
Qed.
